(** * composer: planning and deploying one pinger service per overlay network

    A shallow embedding of [main.go]: the key-value parser, the configuration
    resolver, network and node discovery, the per-network environment
    transformation, the service-spec builder and the sequential deployer.

    Go maps are references.  The environments ([env]) are therefore modelled
    as locations into a heap of map objects, so that two names bound to the
    same map see each other's writes. *)

From Stdlib Require Import Ascii.
From stdpp Require Import gmap strings list fin_maps.

Local Open Scope string_scope.
Local Open Scope Z_scope.
Local Open Scope list_scope.

(** ** Library functions of the Go runtime used by the program *)

Module GoStrings.

(** [strings.Split s sep] for the one-byte separators the program passes
    ([","] and ["="]): the pieces of [s] between the occurrences of [sep],
    in order; [n] occurrences give [n + 1] pieces, so the result is never
    empty (the empty string gives one empty piece). *)
Fixpoint Split (s : string) (sep : ascii) : list string :=
  match s with
  | EmptyString => [EmptyString]
  | String c rest =>
      if Ascii.eqb c sep then EmptyString :: Split rest sep
      else match Split rest sep with
           | piece :: pieces => String c piece :: pieces
           | [] => [String c EmptyString]
           end
  end.

(** [strings.Count s sep] for a one-byte [sep]. *)
Fixpoint Count (s : string) (sep : ascii) : nat :=
  match s with
  | EmptyString => 0%nat
  | String c rest => ((if Ascii.eqb c sep then 1 else 0) + Count rest sep)%nat
  end.

End GoStrings.

Module GoStrconv.

Definition digit (c : ascii) : option Z :=
  let n := Z.of_N (N_of_ascii c) in
  if decide (48 <= n <= 57) then Some (n - 48) else None.

(** The decimal value of a string of digits, most significant first;
    [None] as soon as a byte is not a digit. *)
Fixpoint digits (acc : Z) (s : string) : option Z :=
  match s with
  | EmptyString => Some acc
  | String c rest =>
      match digit c with
      | Some d => digits (acc * 10 + d) rest
      | None => None
      end
  end.

(** [int] is 64 bits wide on the platforms the tool is built for. *)
Definition intSize : Z := 64.
Definition maxInt : Z := 2 ^ (intSize - 1) - 1.
Definition minInt : Z := - 2 ^ (intSize - 1).

(** [strconv.Atoi]: an optional sign, then one or more decimal digits, the
    value within the range of [int].  [None] stands for a non-nil error;
    which of its two errors Go reports, and with what text, is left to the
    runtime below. *)
Definition Atoi (s : string) : option Z :=
  let '(neg, body) :=
    match s with
    | String c rest =>
        if Ascii.eqb c "-" then (true, rest)
        else if Ascii.eqb c "+" then (false, rest)
        else (false, s)
    | EmptyString => (false, s)
    end in
  match body with
  | EmptyString => None
  | _ =>
      match digits 0 body with
      | None => None
      | Some n =>
          let v := if neg then - n else n in
          if decide (minInt <= v <= maxInt) then Some v else None
      end
  end.

End GoStrconv.

(** The line feed that ends the program's messages. *)
Definition LF : string := String (ascii_of_nat 10) EmptyString.

(** ** The data model: [main.go], lines 18-30 *)

Record kv : Type := mkKv { key : string; value : string }.

(** The zero value of [kv], which a Go map read returns for a missing key. *)
Definition kv_zero : kv := {| key := ""; value := "" |}.

(** A location of a map object in the heap. *)
Definition loc : Type := positive.

(** [type env map[string]kv]: a reference to a map object, or [nil]. *)
Definition env : Type := option loc.

(** The contents of one map object of type [env]. *)
Abbreviation envData := (gmap string kv).

(** [type envs map[string]env]. *)
Abbreviation envs := (gmap string env).

Record config : Type := mkConfig {
  AvoidNetworks : gmap string string;
  AvoidMasters : Z
}.

(** ** The key-value parser: [getKeyValue], lines 32-39 *)

Definition getKeyValue (data : string) : string * string :=
  let bits := GoStrings.Split data "="%char in
  if decide (length bits < 2)%nat
  then (bits !!! 0%nat, "")
  else (bits !!! 0%nat, bits !!! 1%nat).

(** ** The configuration resolver: [getSubStringsMap] and [getConfig] *)

(** [getSubStringsMap], lines 91-99: every comma-separated piece is entered
    under itself. *)
Definition getSubStringsMap (array : string) : gmap string string :=
  let list := GoStrings.Split array ","%char in
  fold_left (fun result v => <[v := v]> result) list ∅.

(** What the program needs from the Go runtime beyond the functions above. *)
Class Runtime : Type := {
  (** The text ([err.Error()]) of the error that [strconv.Atoi] returns for
      an input it rejects. *)
  atoiErrorText : string -> string;
  (** The order in which the [n]-th [range] statement over a map visits the
      entries: any order, and not the same from one statement to the next. *)
  rangeOrder : nat -> envData -> list (string * kv);
  rangeOrder_perm : forall n m, rangeOrder n m ≡ₚ map_to_list m
}.

(** Reading a Go map of [kv] at a key: the zero value when the key is
    missing. *)
Definition index (m : envData) (k : string) : kv := default kv_zero (m !! k).

(** [getConfig], lines 62-89.  The result is the Go pair: the configuration
    built so far and the error ([None] for [nil]), here its text.  The zero
    value [config{}] has a [nil] map, which reads as the empty one. *)
Definition getConfig `{Runtime} (containerEnv : envData) : config * option string :=
  let cconfig := {| AvoidNetworks := ∅; AvoidMasters := 0 |} in
  let avoidStrings := index containerEnv "AVOID_NETWORKS" in
  let step1 : config + (config * string) :=
    if decide (value avoidStrings ≠ "") then
      let nets := getSubStringsMap (value avoidStrings) in
      if decide (size nets = 0%nat) then
        inr (cconfig, "invalid value passed for AVOID_NETWORKS")
      else inl {| AvoidNetworks := nets; AvoidMasters := AvoidMasters cconfig |}
    else
      inl {| AvoidNetworks := {["ingress" := "ingress"]};
             AvoidMasters := AvoidMasters cconfig |} in
  match step1 with
  | inr (c, err) => (c, Some err)
  | inl cconfig =>
      let avoidMastersString := index containerEnv "AVOID_MASTERS" in
      if decide (value avoidMastersString ≠ "") then
        match GoStrconv.Atoi (value avoidMastersString) with
        | None =>
            (cconfig,
             Some ("invalid value passed for AVOID_INGRESS: "
                   +:+ atoiErrorText (value avoidMastersString)))
        | Some s =>
            ({| AvoidNetworks := AvoidNetworks cconfig; AvoidMasters := s |}, None)
        end
      else
        ({| AvoidNetworks := AvoidNetworks cconfig; AvoidMasters := 1 |}, None)
  end.

(** ** The platform: the Docker client calls the program makes *)

Record NetworkResource : Type := mkNetwork { Name : string; Driver : string }.

(** [swarm.Node], with the two fields read: [Spec.Role] and
    [Description.Hostname]. *)
Record Node : Type := mkNode { Role : string; Hostname : string }.

Record ContainerSpec : Type := mkContainerSpec {
  Image : string;
  Command : list string;
  Env : list string
}.

Record NetworkAttachmentConfig : Type := mkAttachment {
  Target : string;
  Aliases : list string
}.

Record TaskSpec : Type := mkTaskSpec {
  Container : ContainerSpec;
  Networks : list NetworkAttachmentConfig
}.

(** [swarm.ServiceSpec]: [Replicas] is [Mode.Replicated.Replicas], a
    [uint64]. *)
Record ServiceSpec : Type := mkServiceSpec {
  SpecName : string;
  Labels : gmap string string;
  TaskTemplate : TaskSpec;
  Replicas : Z
}.

(** The client over a platform whose state is a [World]; an error is given
    by its text. *)
Class Docker (World : Type) : Type := {
  NewClient : World -> option string;
  NetworkList : World -> World * (list NetworkResource + string);
  NodeList : World -> World * (list Node + string);
  ServiceCreate : World -> ServiceSpec -> World * option string
}.

(** ** Program state and the monad of the stateful code *)

(** What the process does that can be seen from outside. *)
Inductive event : Type :=
| Created (spec : ServiceSpec) (err : option string)
    (** a [ServiceCreate] call with its answer *)
| Printed (text : string).
    (** a write to standard output *)

Record state (World : Type) : Type := mkState {
  heap : gmap loc envData;   (** the map objects of type [env] *)
  ticks : nat;               (** [range] statements over maps run so far *)
  world : World;             (** the platform *)
  trace : list event         (** the events so far, oldest first *)
}.
Arguments mkState {World}.
Arguments heap {World}.
Arguments ticks {World}.
Arguments world {World}.
Arguments trace {World}.

(** How a computation ends: it returns, the process exits through
    [log.Fatal], or it panics. *)
Inductive outcome (A : Type) : Type :=
| Return (a : A)
| Fatal (msg : string)
| Panic (msg : string).
Arguments Return {A}.
Arguments Fatal {A}.
Arguments Panic {A}.

Definition M (World A : Type) : Type := state World -> outcome A * state World.

#[global] Instance M_ret {World} : MRet (M World) :=
  fun A a st => (Return a, st).

#[global] Instance M_bind {World} : MBind (M World) :=
  fun A B f c st =>
    match c st with
    | (Return a, st') => f a st'
    | (Fatal msg, st') => (Fatal msg, st')
    | (Panic msg, st') => (Panic msg, st')
    end.

Section Program.
Context `{Runtime} {World : Type} `{Docker World}.

Definition fatal {A} (msg : string) : M World A := fun st => (Fatal msg, st).
Definition panic {A} (msg : string) : M World A := fun st => (Panic msg, st).

Definition emit (e : event) : M World unit :=
  fun st => (Return tt, mkState (heap st) (ticks st) (world st) (trace st ++ [e])).

(** The contents of the map a reference points to; a [nil] map reads as
    empty. *)
Definition deref (h : gmap loc envData) (e : env) : envData :=
  match e with
  | Some l => default ∅ (h !! l)
  | None => ∅
  end.

Definition load (e : env) : M World envData :=
  fun st => (Return (deref (heap st) e), st).

(** [e[k] = v]: the write goes to the map object, and is seen through every
    reference to it; on a [nil] map it panics. *)
Definition store (e : env) (k : string) (v : kv) : M World unit :=
  fun st =>
    match e with
    | Some l =>
        (Return tt,
         mkState (<[l := <[k := v]> (deref (heap st) e)]> (heap st))
                 (ticks st) (world st) (trace st))
    | None => (Panic "assignment to entry in nil map", st)
    end.

(** A [range] statement over a map of type [env]. *)
Definition range (e : env) : M World (list (string * kv)) :=
  fun st =>
    (Return (rangeOrder (ticks st) (deref (heap st) e)),
     mkState (heap st) (S (ticks st)) (world st) (trace st)).

(** A platform call: it runs on the world and leaves the new one. *)
Definition call {A} (op : World -> World * A) : M World A :=
  fun st =>
    let '(w, a) := op (world st) in
    (Return a, mkState (heap st) (ticks st) w (trace st)).

(** [client.NewClient] followed by [if err != nil { panic(err) }]. *)
Definition newClient : M World unit :=
  err ← call (fun w => (w, NewClient w));
  match err with
  | Some msg => panic msg
  | None => mret tt
  end.

(** A [for _, x := range l] loop over a slice. *)
Fixpoint for_each {A} (l : list A) (body : A -> M World unit) : M World unit :=
  match l with
  | [] => mret tt
  | x :: rest => body x ;; for_each rest body
  end.

(** ** Discovery: [getNetworkList], lines 101-125, and [getNodeList],
    lines 127-153 *)

(** The loop of [getNetworkList] over the platform's answer. *)
Definition selectNetworks (avoidNetworks : gmap string string)
    (reported : list NetworkResource) : list string :=
  fold_left
    (fun networks network =>
       if decide (Driver network = "overlay") then
         match avoidNetworks !! Name network with
         | None => networks ++ [Name network]
         | Some _ => networks
         end
       else networks)
    reported [].

Definition getNetworkList (avoidNetworks : gmap string string) : M World (list string) :=
  newClient ;;
  r ← call NetworkList;
  match r with
  | inr err => fatal ("docker api returned an error: " +:+ err +:+ LF)
  | inl reported => mret (selectNetworks avoidNetworks reported)
  end.

(** The loop of [getNodeList] over the platform's answer. *)
Definition selectNodes (avoidMasters : Z) (reported : list Node) : list string :=
  fold_left
    (fun nodes node =>
       if decide (Role node = "manager") then
         if decide (avoidMasters = 0) then nodes ++ [Hostname node] else nodes
       else nodes ++ [Hostname node])
    reported [].

Definition getNodeList (avoidMasters : Z) : M World (list string) :=
  newClient ;;
  r ← call NodeList;
  match r with
  | inr err => fatal ("docker api returned an error: " +:+ err +:+ LF)
  | inl reported => mret (selectNodes avoidMasters reported)
  end.

(** ** The environment transformer: [setAndGetContainerEnv], lines 155-183 *)

Definition setAndGetContainerEnv (containerEnv : envs) (network : string) : M World env :=
  let e : env := default None (containerEnv !! network) in
  m ← load e;
  let stackValue := value (index m "STACK_NAME") in
  let serviceValue := value (index m "SERVICE_NAME") in
  let stackKey := key (index m "STACK_NAME") in
  let newStackName := stackValue +:+ "_" +:+ network in
  let newServiceSpecName := newStackName +:+ "_" +:+ serviceValue in
  store e "STACK_NAME" {| key := stackKey; value := newStackName |} ;;
  store e "SERVICE_SPEC_NAME"
        {| key := "SERVICE_SPEC_NAME"; value := newServiceSpecName |} ;;
  mret e.

(** ** The readers of an environment, lines 185-208 *)

Definition getContainerEnv (containerEnv : env) : M World (list string) :=
  entries ← range containerEnv;
  mret (map (fun entry => key (snd entry) +:+ "=" +:+ value (snd entry)) entries).

Definition getServiceName (containerEnv : envData) : string :=
  value (index containerEnv "SERVICE_NAME").

Definition getServiceSpecName (containerEnv : envData) : string :=
  value (index containerEnv "SERVICE_SPEC_NAME").

Definition getStackName (containerEnv : envData) : string :=
  value (index containerEnv "STACK_NAME").

Definition getImage (containerEnv : envData) : string :=
  value (index containerEnv "IMAGE").

(** ** The service-spec builder: [getServiceDefinition], lines 210-227 *)

Definition getServiceDefinition (replicas : Z) (network : string) (cfg : envs)
    : M World ServiceSpec :=
  e ← setAndGetContainerEnv cfg network;
  m ← load e;
  envList ← getContainerEnv e;
  let container :=
    {| Image := getImage m; Command := ["/go/bin/pinger"]; Env := envList |} in
  let nets := {| Target := network; Aliases := [getServiceName m] |} in
  mret {| SpecName := getServiceSpecName m;
          Labels := {[ "com.docker.stack.image" := getImage m;
                       "com.docker.stack.namespace" := getStackName m ]};
          TaskTemplate := {| Container := container; Networks := [nets] |};
          Replicas := replicas |}.

(** ** The pipeline: [main], lines 229-286 *)

(** Lines 262-265: every network is bound to the environment that was
    loaded. *)
Definition makeConfigs (containerEnv : env) (networks : list string) : envs :=
  fold_left (fun configs network => <[network := containerEnv]> configs) networks ∅.

(** The conversion [uint64(n)] of an [int]. *)
Definition uint64 (n : Z) : Z := n mod 2 ^ 64.

(** Lines 270-274: one service definition per network, appended to the
    worklist. *)
Fixpoint buildWorklist (networks nodes : list string) (configs : envs)
    (worklist : list ServiceSpec) : M World (list ServiceSpec) :=
  match networks with
  | [] => mret worklist
  | network :: rest =>
      let numberOfNodes := Z.of_nat (length nodes) in
      s ← getServiceDefinition (uint64 numberOfNodes) network configs;
      buildWorklist rest nodes configs (worklist ++ [s])
  end.

(** [cli.ServiceCreate]: the call and its answer are recorded. *)
Definition serviceCreate (work : ServiceSpec) : M World (option string) :=
  err ← call (fun w => ServiceCreate w work);
  emit (Created work err) ;;
  mret err.

(** Lines 276-284: the worklist is executed sequentially. *)
Definition deploy (worklist : list ServiceSpec) : M World unit :=
  for_each worklist (fun work =>
    err ← serviceCreate work;
    match err with
    | Some msg => fatal ("unable to create service: " +:+ msg +:+ LF)
    | None => emit (Printed ("created server: " +:+ SpecName work +:+ LF))
    end).

(** The body of [main] from line 234 on; the environment that
    [getcontainerEnv] loaded from the file is its argument. *)
Definition main (containerEnv : env) : M World unit :=
  m ← load containerEnv;
  let '(c, err) := getConfig m in
  match err with
  | Some msg => fatal ("startup failed due to a config error: " +:+ msg)
  | None =>
      networks ← getNetworkList (AvoidNetworks c);
      if decide (length networks = 0%nat) then fatal ("no overlay networks found" +:+ LF)
      else
        nodes ← getNodeList (AvoidMasters c);
        if decide (length nodes = 0%nat) then fatal ("no useable nodes found" +:+ LF)
        else
          newClient ;;
          let configs := makeConfigs containerEnv networks in
          worklist ← buildWorklist networks nodes configs [];
          deploy worklist
  end.

End Program.

(** ** Loading the environment: [getcontainerEnv], lines 41-60 *)

(** [strings.TrimSpace], which the loader applies to every line, is taken as
    it comes from the library. *)
Class Strings : Type := {
  TrimSpace : string -> string
}.

(** [strings.HasPrefix]. *)
Definition HasPrefix (s prefix : string) : bool := String.prefix prefix s.

Section Loader.
Context `{Strings} `{Runtime} {World : Type} `{Docker World}.

(** [make(map[string]kv)]: a new, empty map object at a location that is
    not in use. *)
Definition make : M World env :=
  fun st =>
    let l := fresh (dom (heap st)) in
    (Return (Some l),
     mkState (<[l := ∅]> (heap st)) (ticks st) (world st) (trace st)).

(** The body of the scanning loop, for the line [text] the scanner
    yields. *)
Definition scanLine (kvs : env) (text : string) : M World unit :=
  let l := TrimSpace text in
  if negb (HasPrefix l "#") then
    let '(k, v) := getKeyValue l in
    store kvs k {| key := k; value := v |}
  else mret tt.

(** [getcontainerEnv].  Its argument is what the file system gives:
    the lines the scanner yields for [.env], or the error of [os.Open].
    The scanner ends the scan at a line that does not fit its buffer, and
    the loop does not read [scanner.Err]: the lines of the file from there
    on are not among the lines it yields. *)
Definition getcontainerEnv (file : list string + string) : M World env :=
  match file with
  | inr err => fatal err
  | inl lines =>
      kvs ← make;
      for_each lines (scanLine kvs) ;;
      mret kvs
  end.

(** [main] as a whole, lines 229-286: the environment is loaded, then the
    rest runs on it. *)
Definition mainWithFile (file : list string + string) : M World unit :=
  containerEnv ← getcontainerEnv file;
  main containerEnv.

End Loader.

(** ** A concrete runtime and platform, for running the program *)

Module Scenario.

(** Maps are visited in the order of stdpp's [map_to_list]; the error of
    [Atoi] reads as Go's syntax error does for a plain word. *)
Definition plainRuntime : Runtime :=
  {| atoiErrorText := fun s =>
       "strconv.Atoi: parsing "
       +:+ String (ascii_of_nat 34) s +:+ String (ascii_of_nat 34) EmptyString
       +:+ ": invalid syntax";
     rangeOrder := fun _ m => map_to_list m;
     rangeOrder_perm := fun _ m => reflexivity (map_to_list m) |}.

(** A platform that reports fixed networks and nodes and answers the
    successive [ServiceCreate] calls from a script ([None]: created). *)
Record Scripted : Type := mkScripted {
  reportedNetworks : list NetworkResource;
  reportedNodes : list Node;
  answers : list (option string)
}.

Definition scriptedDocker : Docker Scripted :=
  {| NewClient := fun _ => None;
     NetworkList := fun w => (w, inl (reportedNetworks w));
     NodeList := fun w => (w, inl (reportedNodes w));
     ServiceCreate := fun w _ =>
       (mkScripted (reportedNetworks w) (reportedNodes w) (tail (answers w)),
        default None (head (answers w))) |}.

(** The base environment of the end-to-end scenario. *)
Definition baseEnv : envData :=
  <["STACK_NAME" := mkKv "STACK_NAME" "app"]>
    (<["SERVICE_NAME" := mkKv "SERVICE_NAME" "svc"]>
       (<["IMAGE" := mkKv "IMAGE" "img:v1"]> ∅)).

(** A heap holding the base environment at one location. *)
Definition baseState {World} (w : World) : state World :=
  mkState {[ 1%positive := baseEnv ]} 0 w [].

Definition cluster : Scripted :=
  mkScripted
    [mkNetwork "net-a" "overlay"; mkNetwork "net-b" "overlay"]
    [mkNode "worker" "w1"; mkNode "worker" "w2"; mkNode "worker" "w3"]
    [].

(** White space as [TrimSpace] sees it in a line of plain ASCII text. *)
Definition asciiSpace (c : ascii) : bool :=
  let n := N_of_ascii c in
  (N.eqb n 32 || (N.leb 9 n && N.leb n 13))%bool.

Fixpoint trimLeft (s : string) : string :=
  match s with
  | String c rest => if asciiSpace c then trimLeft rest else s
  | EmptyString => EmptyString
  end.

(** A [TrimSpace] for ASCII text: the white space at both ends is cut. *)
Definition asciiStrings : Strings :=
  {| TrimSpace := fun s =>
       String.rev (trimLeft (String.rev (trimLeft s))) |}.

(** A platform whose client cannot be built, and one whose listings fail. *)
Definition noClient : Docker unit :=
  {| NewClient := fun _ => Some "cannot connect to the Docker daemon";
     NetworkList := fun w => (w, inl []);
     NodeList := fun w => (w, inl []);
     ServiceCreate := fun w _ => (w, None) |}.

Definition noListing : Docker unit :=
  {| NewClient := fun _ => None;
     NetworkList := fun w => (w, inr "permission denied");
     NodeList := fun w => (w, inr "permission denied");
     ServiceCreate := fun w _ => (w, None) |}.


(** A specification that has only a name, and a platform on which the
    second [ServiceCreate] call fails. *)
Definition service (name : string) : ServiceSpec :=
  {| SpecName := name;
     Labels := ∅;
     TaskTemplate :=
       {| Container := {| Image := ""; Command := []; Env := [] |};
          Networks := [] |};
     Replicas := 1 |}.

Definition secondFails : Scripted :=
  mkScripted [] [] [None; Some "no such image"].

End Scenario.

(** ** Notions the properties are stated with *)

(** A string of decimal digits. *)
Fixpoint allDigits (s : string) : Prop :=
  match s with
  | EmptyString => True
  | String c rest => 48 <= Z.of_N (N_of_ascii c) <= 57 ∧ allDigits rest
  end.

(** The number a string of decimal digits denotes. *)
Fixpoint decimalValue (s : string) : Z :=
  match s with
  | EmptyString => 0
  | String c rest =>
      (Z.of_N (N_of_ascii c) - 48) * 10 ^ Z.of_nat (String.length rest)
      + decimalValue rest
  end.

(** [s] is a valid integer denoting [n]: an optional sign, one or more
    decimal digits, and a value that fits [int]. *)
Definition validInteger (s : string) (n : Z) : Prop :=
  ∃ sign body,
    s = sign +:+ body
    ∧ (sign = "" ∨ sign = "+" ∨ sign = "-")
    ∧ body ≠ ""
    ∧ allDigits body
    ∧ n = (if decide (sign = "-") then - decimalValue body else decimalValue body)
    ∧ GoStrconv.minInt <= n <= GoStrconv.maxInt.

(** The networks the specification asks for: the overlay networks whose
    name is not in the avoid-set, in the reported order. *)
Definition eligibleNetworks (avoidNetworks : gmap string string)
    (reported : list NetworkResource) : list string :=
  Name <$> filter (fun network =>
                     Driver network = "overlay"
                     ∧ avoidNetworks !! Name network = None) reported.

(** The contents of an environment after its transformation for
    [network]. *)
Definition transformed (network : string) (m : envData) : envData :=
  let newStackName := value (index m "STACK_NAME") +:+ "_" +:+ network in
  <["SERVICE_SPEC_NAME" :=
      {| key := "SERVICE_SPEC_NAME";
         value := newStackName +:+ "_" +:+ value (index m "SERVICE_NAME") |}]>
    (<["STACK_NAME" :=
         {| key := key (index m "STACK_NAME"); value := newStackName |}]> m).

(** What a successful entry leaves in the trace: the call, then the
    confirmation with the service's name. *)
Definition confirmation (work : ServiceSpec) : list event :=
  [Created work None; Printed ("created server: " +:+ SpecName work +:+ LF)].

(** The specifications handed to [ServiceCreate], in the order of the
    calls. *)
Definition submitted (tr : list event) : list ServiceSpec :=
  flat_map (fun e => match e with Created spec _ => [spec] | Printed _ => [] end) tr.

(** Unfolding the monad of the program. *)
Ltac run := unfold mbind, M_bind, mret, M_ret, load, store, emit, call; simpl.

(** The entry a line of the file stands for: [None] for a comment line. *)
Definition lineEntry `{Strings} (text : string) : option (string * kv) :=
  let l := TrimSpace text in
  if HasPrefix l "#" then None
  else Some ((getKeyValue l).1,
             {| key := (getKeyValue l).1; value := (getKeyValue l).2 |}).

(** The environment after the lines of the file have been entered into
    [m], one after the other. *)
Definition loadInto `{Strings} (m : envData) (lines : list string) : envData :=
  fold_left
    (fun m text =>
       match lineEntry text with
       | Some (k, entry) => <[k := entry]> m
       | None => m
       end)
    lines m.

(** The nodes the replicas are counted over: every node that is not a
    manager, and the managers too when the threshold is [0]; in the
    reported order. *)
Definition usableNodes (avoidMasters : Z) (reported : list Node) : list string :=
  Hostname <$> filter (fun node => Role node ≠ "manager" ∨ avoidMasters = 0) reported.

(** The [KEY=VALUE] rendering of an entry. *)
Definition rendering (entry : kv) : string := key entry +:+ "=" +:+ value entry.

(** The stack name after the transformations for [networks], one after the
    other, of an environment whose stack name was [stack]. *)
Definition compounded (stack : string) (networks : list string) : string :=
  fold_left (fun name network => name +:+ "_" +:+ network) networks stack.

(** The specification built for [network] from the environment [m] it
    finds after the transformation, when the [range] statement is the
    [tick]-th. *)
Definition plannedSpec `{Runtime} (replicas : Z) (tick : nat) (network : string)
    (m : envData) : ServiceSpec :=
  {| SpecName := getServiceSpecName m;
     Labels := {[ "com.docker.stack.image" := getImage m;
                  "com.docker.stack.namespace" := getStackName m ]};
     TaskTemplate :=
       {| Container :=
            {| Image := getImage m;
               Command := ["/go/bin/pinger"];
               Env := map (fun entry => key (snd entry) +:+ "=" +:+ value (snd entry))
                          (rangeOrder tick m) |};
          Networks := [{| Target := network; Aliases := [getServiceName m] |}] |};
     Replicas := replicas |}.

(** The worklist for [networks] when they all share the one environment
    [m]: each specification is built from what the transformations before
    it have left. *)
Fixpoint planned `{Runtime} (replicas : Z) (tick : nat) (m : envData)
    (networks : list string) : list ServiceSpec :=
  match networks with
  | [] => []
  | network :: rest =>
      plannedSpec replicas tick network (transformed network m)
      :: planned replicas (S tick) (transformed network m) rest
  end.

(** The names of that worklist, from the stack name and the service name
    the environment starts with. *)
Fixpoint plannedNames (stack service : string) (networks : list string) : list string :=
  match networks with
  | [] => []
  | network :: rest =>
      ((stack +:+ "_" +:+ network) +:+ "_" +:+ service)
      :: plannedNames (stack +:+ "_" +:+ network) service rest
  end.

(** * Properties *)

(** ** Splitting *)

Lemma Split_nonempty (s : string) (sep : ascii) : GoStrings.Split s sep ≠ [].
Proof.
  destruct s as [|c s]; simpl; [done|].
  destruct (Ascii.eqb c sep); [done|].
  by destruct (GoStrings.Split s sep).
Qed.

(** A string without the separator is its own single piece. *)
Lemma Split_no_sep (s : string) (sep : ascii) :
  GoStrings.Count s sep = 0%nat → GoStrings.Split s sep = [s].
Proof.
  induction s as [|c s IH]; simpl; [done|].
  destruct (Ascii.eqb c sep); [done|].
  intros Hc. by rewrite IH.
Qed.

(** The first piece ends at the first separator. *)
Lemma Split_app_sep (a b : string) (sep : ascii) :
  GoStrings.Count a sep = 0%nat →
  GoStrings.Split (a +:+ String sep b) sep = a :: GoStrings.Split b sep.
Proof.
  induction a as [|c a IH]; simpl.
  - intros _. by rewrite Ascii.eqb_refl.
  - destruct (Ascii.eqb c sep); [done|].
    intros Hc. by rewrite IH.
Qed.

(** A string with a separator splits at the first one. *)
Lemma Count_pos_split (s : string) (sep : ascii) :
  (1 ≤ GoStrings.Count s sep)%nat →
  ∃ a b, s = a +:+ String sep b ∧ GoStrings.Count a sep = 0%nat
         ∧ GoStrings.Count s sep = S (GoStrings.Count b sep).
Proof.
  induction s as [|c s IH]; simpl; [lia|].
  destruct (Ascii.eqb_spec c sep) as [->|Hne].
  - intros _. exists EmptyString, s. done.
  - intros Hc. destruct (IH Hc) as (a & b & -> & Ha & Hb).
    exists (String c a), b. simpl.
    destruct (Ascii.eqb_spec c sep); [done|]. done.
Qed.

Lemma Split_length (s : string) (sep : ascii) :
  length (GoStrings.Split s sep) = S (GoStrings.Count s sep).
Proof.
  induction s as [|c s IH]; simpl; [done|].
  destruct (Ascii.eqb c sep); simpl; [by rewrite IH|].
  destruct (GoStrings.Split s sep); simpl in *; lia.
Qed.

(** ** C10: the key-value parser *)

(** C10. For every line with two or more ['='], [getKeyValue] returns the
    text before the first ['='] as the key and the text between the first
    and the second ['='] as the value; what follows the second ['='] is
    dropped. *)
Theorem getKeyValue_drops_after_second_equals (data : string) :
  (2 ≤ GoStrings.Count data "=")%nat →
  ∃ k v rest,
    data = k +:+ "=" +:+ v +:+ "=" +:+ rest
    ∧ GoStrings.Count k "=" = 0%nat
    ∧ GoStrings.Count v "=" = 0%nat
    ∧ getKeyValue data = (k, v).
Proof.
  intros Hc.
  destruct (Count_pos_split data "=") as (k & tl & -> & Hk & Hn); [lia|].
  destruct (Count_pos_split tl "=") as (v & rest & -> & Hv & _); [lia|].
  exists k, v, rest. split_and!; try done.
  unfold getKeyValue.
  rewrite (Split_app_sep k _ "=" Hk), (Split_app_sep v _ "=" Hv).
  case_decide as Hlen; [simpl in Hlen; lia|]. done.
Qed.

Lemma getKeyValue_drops_after_second_equals_witness :
  (2 ≤ GoStrings.Count "K=a=b" "=")%nat
  ∧ getKeyValue "K=a=b" = ("K", "a")
  ∧ ∃ k v rest,
      "K=a=b" = k +:+ "=" +:+ v +:+ "=" +:+ rest
      ∧ GoStrings.Count k "=" = 0%nat
      ∧ GoStrings.Count v "=" = 0%nat
      ∧ getKeyValue "K=a=b" = (k, v).
Proof.
  split; [simpl; lia|]. split; [reflexivity|].
  apply (getKeyValue_drops_after_second_equals "K=a=b"). simpl; lia.
Defined.

(** ** C9: the avoid-list *)

Lemma fold_insert_self_lookup (l : list string) (m : gmap string string) (k : string) :
  fold_left (fun result v => <[v := v]> result) l m !! k
  = if decide (k ∈ l) then Some k else m !! k.
Proof.
  revert m. induction l as [|x l IH]; intros m; cbn [fold_left].
  - rewrite decide_False; [done|apply not_elem_of_nil].
  - rewrite IH. destruct (decide (k ∈ l)) as [Hl|Hl].
    + rewrite decide_True; [done|by right].
    + destruct (decide (k = x)) as [->|Hne].
      * rewrite decide_True; [|by left]. by rewrite lookup_insert_eq.
      * rewrite decide_False; [by rewrite lookup_insert_ne|].
        intros [?|?]%elem_of_cons; done.
Qed.

(** The map of [getSubStringsMap] holds exactly the pieces, each under
    itself. *)
Lemma getSubStringsMap_lookup (array k v : string) :
  getSubStringsMap array !! k = Some v ↔ k ∈ GoStrings.Split array "," ∧ v = k.
Proof.
  unfold getSubStringsMap. rewrite fold_insert_self_lookup.
  case_decide; rewrite ?lookup_empty.
  - split; [by intros [= ->]|by intros [_ ->]].
  - split; [done|by intros [? _]].
Qed.

Lemma getSubStringsMap_dom (array : string) :
  dom (getSubStringsMap array) = list_to_set (GoStrings.Split array ",").
Proof.
  apply set_eq. intros k. rewrite elem_of_dom, elem_of_list_to_set.
  split.
  - intros [v Hv]. by apply getSubStringsMap_lookup in Hv as [? _].
  - intros Hin. exists k. by apply getSubStringsMap_lookup.
Qed.

(** Splitting always gives a piece, so the map is never empty. *)
Lemma getSubStringsMap_size (array : string) : size (getSubStringsMap array) ≠ 0%nat.
Proof.
  intros Hsz. apply map_size_empty_iff in Hsz.
  pose proof (Split_nonempty array ",") as Hne.
  destruct (GoStrings.Split array ",") as [|p ps] eqn:Hs; [done|].
  assert (getSubStringsMap array !! p = Some p) as Hp.
  { apply getSubStringsMap_lookup. rewrite Hs. split; [by left|done]. }
  rewrite Hsz, lookup_empty in Hp. done.
Qed.

(** The avoid-list that [getConfig] resolves, whatever becomes of
    [AVOID_MASTERS]. *)
Lemma getConfig_AvoidNetworks `{Runtime} (containerEnv : envData) :
  AvoidNetworks (getConfig containerEnv).1
  = if decide (value (index containerEnv "AVOID_NETWORKS") ≠ "")
    then getSubStringsMap (value (index containerEnv "AVOID_NETWORKS"))
    else {["ingress" := "ingress"]}.
Proof.
  unfold getConfig.
  destruct (decide (value (index containerEnv "AVOID_NETWORKS") ≠ "")) as [Hv|Hv].
  - rewrite decide_False by apply getSubStringsMap_size.
    case_decide; [destruct (GoStrconv.Atoi _)|]; done.
  - case_decide; [destruct (GoStrconv.Atoi _)|]; done.
Qed.

(** The only error [getConfig] returns is the one for [AVOID_MASTERS]. *)
Lemma getConfig_error `{Runtime} (containerEnv : envData) :
  (getConfig containerEnv).2
  = if decide (value (index containerEnv "AVOID_MASTERS") ≠ "")
    then match GoStrconv.Atoi (value (index containerEnv "AVOID_MASTERS")) with
         | Some _ => None
         | None =>
             Some ("invalid value passed for AVOID_INGRESS: "
                   +:+ atoiErrorText (value (index containerEnv "AVOID_MASTERS")))
         end
    else None.
Proof.
  unfold getConfig.
  destruct (decide (value (index containerEnv "AVOID_NETWORKS") ≠ "")) as [Hv|Hv].
  - rewrite decide_False by apply getSubStringsMap_size.
    case_decide; [destruct (GoStrconv.Atoi _)|]; done.
  - case_decide; [destruct (GoStrconv.Atoi _)|]; done.
Qed.

(** An entry that is present is what a read of the map gives. *)
Lemma index_lookup (m : envData) (k : string) (entry : kv) :
  m !! k = Some entry → index m k = entry.
Proof. intros Hl. unfold index. by rewrite Hl. Qed.

(** A key that is absent reads as the zero value. *)
Lemma index_absent (m : envData) (k : string) :
  m !! k = None → index m k = kv_zero.
Proof. intros Hl. unfold index. by rewrite Hl. Qed.

(** C9. The avoid-list is [{"ingress"}] when the environment has no
    [AVOID_NETWORKS] entry or the entry's value is empty; when the entry
    has a value that is not empty, the avoid-list is the set of its
    comma-separated pieces, each entered under itself (so ["a,b,c"] gives
    [{"a","b","c"}]); the error for an empty list is never returned, since
    splitting always gives at least one piece. *)
Theorem resolveAvoidNetworks_spec `{Runtime} (containerEnv : envData) :
  let avoid := AvoidNetworks (getConfig containerEnv).1 in
  (containerEnv !! "AVOID_NETWORKS" = None → avoid = {["ingress" := "ingress"]})
  ∧ (∀ entry,
       containerEnv !! "AVOID_NETWORKS" = Some entry →
       (value entry = "" → avoid = {["ingress" := "ingress"]})
       ∧ (value entry ≠ "" →
            dom avoid = list_to_set (GoStrings.Split (value entry) ",")
            ∧ ∀ k v, avoid !! k = Some v
                     ↔ k ∈ GoStrings.Split (value entry) "," ∧ v = k)
       ∧ (value entry = "a,b,c" → dom avoid = ({["a"; "b"; "c"]} : gset string)))
  ∧ (∀ s, (1 ≤ length (GoStrings.Split s ","))%nat
          ∧ size (getSubStringsMap s) ≠ 0%nat)
  ∧ (getConfig containerEnv).2 ≠ Some "invalid value passed for AVOID_NETWORKS".
Proof.
  intros avoid. subst avoid. rewrite getConfig_AvoidNetworks.
  split_and!.
  - intros Habs. by rewrite (index_absent _ _ Habs).
  - intros entry Hentry. rewrite (index_lookup _ _ _ Hentry). split_and!.
    + intros Hv. by rewrite decide_False by auto.
    + intros Hv. rewrite decide_True by done.
      split; [apply getSubStringsMap_dom|apply getSubStringsMap_lookup].
    + intros Hv. rewrite Hv. rewrite decide_True by done.
      rewrite getSubStringsMap_dom. simpl. set_solver.
  - intros s. split; [rewrite Split_length; lia|apply getSubStringsMap_size].
  - rewrite getConfig_error. case_decide; [|done].
    destruct (GoStrconv.Atoi _); [done|]. simpl. intros [=].
Qed.

Lemma resolveAvoidNetworks_spec_witness :
  (dom (AvoidNetworks
          (@getConfig Scenario.plainRuntime
             {["AVOID_NETWORKS" := mkKv "AVOID_NETWORKS" "a,b,c"]}).1)
   = ({["a"; "b"; "c"]} : gset string)
   ∧ AvoidNetworks
       (@getConfig Scenario.plainRuntime
          {["AVOID_NETWORKS" := mkKv "AVOID_NETWORKS" "a,b,c"]}).1 !! "b"
     = Some "b")
  ∧ AvoidNetworks
      (@getConfig Scenario.plainRuntime
         {["AVOID_NETWORKS" := mkKv "AVOID_NETWORKS" ""]}).1
    = {["ingress" := "ingress"]}
  ∧ AvoidNetworks (@getConfig Scenario.plainRuntime ∅).1
    = {["ingress" := "ingress"]}.
Proof.
  split; [|split].
  - destruct (@resolveAvoidNetworks_spec Scenario.plainRuntime
                {["AVOID_NETWORKS" := mkKv "AVOID_NETWORKS" "a,b,c"]})
      as (_ & Hentry & _).
    destruct (Hentry (mkKv "AVOID_NETWORKS" "a,b,c") eq_refl)
      as (_ & Hpieces & Habc).
    split; [exact (Habc eq_refl)|].
    apply Hpieces; [discriminate|]. split; [|reflexivity].
    right. left.
  - destruct (@resolveAvoidNetworks_spec Scenario.plainRuntime
                {["AVOID_NETWORKS" := mkKv "AVOID_NETWORKS" ""]})
      as (_ & Hentry & _).
    destruct (Hentry (mkKv "AVOID_NETWORKS" "") eq_refl) as (Hempty & _).
    exact (Hempty eq_refl).
  - destruct (@resolveAvoidNetworks_spec Scenario.plainRuntime ∅) as (Habs & _).
    exact (Habs eq_refl).
Defined.

(** ** C8: the avoid-masters threshold *)

Lemma getConfig_AvoidMasters `{Runtime} (containerEnv : envData) :
  AvoidMasters (getConfig containerEnv).1
  = if decide (value (index containerEnv "AVOID_MASTERS") ≠ "")
    then match GoStrconv.Atoi (value (index containerEnv "AVOID_MASTERS")) with
         | Some s => s
         | None => 0
         end
    else 1.
Proof.
  unfold getConfig.
  destruct (decide (value (index containerEnv "AVOID_NETWORKS") ≠ "")) as [Hv|Hv].
  - rewrite decide_False by apply getSubStringsMap_size.
    case_decide; [destruct (GoStrconv.Atoi _)|]; done.
  - case_decide; [destruct (GoStrconv.Atoi _)|]; done.
Qed.

(** What [Atoi] accepts: exactly the valid integers, with their value. *)

Lemma digits_allDigits (s : string) (acc : Z) :
  allDigits s →
  GoStrconv.digits acc s
  = Some (acc * 10 ^ Z.of_nat (String.length s) + decimalValue s).
Proof.
  revert acc. induction s as [|c s IH]; intros acc Hs.
  - simpl. f_equal. lia.
  - destruct Hs as [Hc Hs]. cbn [GoStrconv.digits]. unfold GoStrconv.digit.
    rewrite decide_True by done. rewrite (IH _ Hs).
    cbn [decimalValue String.length]. f_equal.
    rewrite Nat2Z.inj_succ, Z.pow_succ_r by lia. lia.
Qed.

Lemma digits_Some (s : string) (acc v : Z) :
  GoStrconv.digits acc s = Some v → allDigits s.
Proof.
  revert acc. induction s as [|c s IH]; intros acc Hd; [done|].
  cbn [GoStrconv.digits] in Hd. unfold GoStrconv.digit in Hd.
  case_decide as Hc; [|done]. split; [done|by eapply IH].
Qed.

Lemma digits_zero (s : string) (v : Z) :
  GoStrconv.digits 0 s = Some v ↔ allDigits s ∧ v = decimalValue s.
Proof.
  split.
  - intros Hd. pose proof (digits_Some _ _ _ Hd) as Hall.
    rewrite (digits_allDigits _ _ Hall) in Hd. split; [done|].
    injection Hd as <-. lia.
  - intros [Hall Hv]. subst v. rewrite (digits_allDigits _ _ Hall). f_equal; lia.
Qed.

Lemma digit_not_sign (d : ascii) :
  48 <= Z.of_N (N_of_ascii d) <= 57 →
  Ascii.eqb d "-" = false ∧ Ascii.eqb d "+" = false.
Proof.
  intros Hd. split.
  - destruct (Ascii.eqb_spec d "-") as [->|_]; [|done].
    change (Z.of_N (N_of_ascii "-")) with 45 in Hd. lia.
  - destruct (Ascii.eqb_spec d "+") as [->|_]; [|done].
    change (Z.of_N (N_of_ascii "+")) with 43 in Hd. lia.
Qed.

Lemma Atoi_validInteger (s : string) (n : Z) :
  GoStrconv.Atoi s = Some n ↔ validInteger s n.
Proof.
  split.
  - unfold GoStrconv.Atoi. destruct s as [|c rest]; [done|].
    destruct (Ascii.eqb_spec c "-") as [->|Hminus];
      [|destruct (Ascii.eqb_spec c "+") as [->|Hplus]].
    + destruct rest as [|d rest]; [done|].
      destruct (GoStrconv.digits 0 (String d rest)) as [v|] eqn:Hd; [|done].
      case_decide as Hrange; [|done]. intros [= <-].
      apply digits_zero in Hd as [Hall Hv]; subst v.
      exists "-", (String d rest).
      split; [done|]. split; [by auto|]. split; [done|]. split; [done|].
      split; [by rewrite decide_True|done].
    + destruct rest as [|d rest]; [done|].
      destruct (GoStrconv.digits 0 (String d rest)) as [v|] eqn:Hd; [|done].
      case_decide as Hrange; [|done]. intros [= <-].
      apply digits_zero in Hd as [Hall Hv]; subst v.
      exists "+", (String d rest).
      split; [done|]. split; [by auto|]. split; [done|]. split; [done|].
      split; [by rewrite decide_False|done].
    + destruct (GoStrconv.digits 0 (String c rest)) as [v|] eqn:Hd; [|done].
      case_decide as Hrange; [|done]. intros [= <-].
      apply digits_zero in Hd as [Hall Hv]; subst v.
      exists "", (String c rest).
      split; [done|]. split; [by auto|]. split; [done|]. split; [done|].
      split; [by rewrite decide_False|done].
  - intros (sign & body & Hs & Hsign & Hbody & Hall & Hn & Hrange). subst s n.
    destruct body as [|d body]; [done|].
    pose proof (proj2 (digits_zero (String d body) _) (conj Hall eq_refl)) as Hd.
    unfold GoStrconv.Atoi.
    destruct Hsign as [-> | [-> | ->]].
    + change ("" +:+ String d body) with (String d body).
      destruct (digit_not_sign d (proj1 Hall)) as [-> ->].
      rewrite Hd. destruct (decide ("" = "-")) as [?|_]; [done|].
      by rewrite decide_True.
    + change ("+" +:+ String d body) with (String "+" (String d body)).
      cbv beta iota zeta. simpl (Ascii.eqb _ _). cbv beta iota zeta. rewrite Hd. destruct (decide ("+" = "-")) as [?|_]; [done|].
      by rewrite decide_True.
    + change ("-" +:+ String d body) with (String "-" (String d body)).
      cbv beta iota zeta. simpl (Ascii.eqb _ _). cbv beta iota zeta. rewrite Hd. destruct (decide ("-" = "-")) as [_|?]; [|done].
      by rewrite decide_True.
Qed.

(** What [Atoi] rejects: everything else. *)
Lemma Atoi_rejects (s : string) :
  GoStrconv.Atoi s = None ↔ ¬ ∃ n, validInteger s n.
Proof.
  split.
  - intros Herr [n Hn]. apply Atoi_validInteger in Hn. congruence.
  - intros Hnot. destruct (GoStrconv.Atoi s) as [n|] eqn:Hs; [|done].
    destruct Hnot. exists n. by apply Atoi_validInteger.
Qed.

(** C8. The threshold is [1] when the environment has no [AVOID_MASTERS]
    entry or the entry's value is empty; it is the integer the value
    denotes when the value is a valid integer (["0"] gives [0], ["1"] gives
    [1]); and [getConfig] returns an error exactly when there is an entry
    whose value is not empty and not a valid integer (as ["bad"] is
    not). *)
Theorem resolveAvoidMasters_spec `{Runtime} (containerEnv : envData) :
  let r := getConfig containerEnv in
  (containerEnv !! "AVOID_MASTERS" = None → AvoidMasters r.1 = 1 ∧ r.2 = None)
  ∧ (∀ entry,
       containerEnv !! "AVOID_MASTERS" = Some entry →
       (value entry = "" → AvoidMasters r.1 = 1 ∧ r.2 = None)
       ∧ (∀ n, validInteger (value entry) n → AvoidMasters r.1 = n ∧ r.2 = None)
       ∧ (value entry = "0" → AvoidMasters r.1 = 0 ∧ r.2 = None)
       ∧ (value entry = "1" → AvoidMasters r.1 = 1 ∧ r.2 = None)
       ∧ (value entry = "bad" → is_Some r.2)
       ∧ (is_Some r.2 ↔ value entry ≠ "" ∧ ¬ ∃ n, validInteger (value entry) n))
  ∧ (is_Some r.2
     ↔ ∃ entry,
         containerEnv !! "AVOID_MASTERS" = Some entry
         ∧ value entry ≠ ""
         ∧ ¬ ∃ n, validInteger (value entry) n).
Proof.
  intros r. subst r.
  rewrite getConfig_AvoidMasters, getConfig_error.
  assert (∀ raw n, validInteger raw n →
            (if decide (raw ≠ "")
             then match GoStrconv.Atoi raw with Some s => s | None => 0 end
             else 1) = n
            ∧ (if decide (raw ≠ "")
               then match GoStrconv.Atoi raw with
                    | Some _ => None
                    | None =>
                        Some ("invalid value passed for AVOID_INGRESS: "
                              +:+ atoiErrorText raw)
                    end
               else None) = None) as Hvalid.
  { intros raw n Hn. pose proof Hn as Hparse. apply Atoi_validInteger in Hparse.
    destruct (decide (raw ≠ "")) as [_|Hraw]; [by rewrite Hparse|].
    apply dec_stable in Hraw. rewrite Hraw in Hparse. done. }
  assert (∀ raw,
            is_Some (if decide (raw ≠ "")
                     then match GoStrconv.Atoi raw with
                          | Some _ => None
                          | None =>
                              Some ("invalid value passed for AVOID_INGRESS: "
                                    +:+ atoiErrorText raw)
                          end
                     else None)
            ↔ raw ≠ "" ∧ ¬ ∃ n, validInteger raw n) as Herror.
  { intros raw. rewrite <- Atoi_rejects. case_decide as Hraw.
    - destruct (GoStrconv.Atoi raw) as [n|].
      + split; [by intros [? [=]]|]. by intros [_ [=]].
      + split; [eauto|]. intros _. eauto.
    - split; [by intros [? [=]]|]. intros [Hne _]. exfalso. exact (Hne Hraw). }
  split_and!.
  - intros Habs. by rewrite (index_absent _ _ Habs).
  - intros entry Hentry. rewrite (index_lookup _ _ _ Hentry). split_and!.
    + intros Hv. destruct (decide (value entry ≠ "")); done.
    + apply Hvalid.
    + intros Hv. apply Hvalid. apply Atoi_validInteger. by rewrite Hv.
    + intros Hv. apply Hvalid. apply Atoi_validInteger. by rewrite Hv.
    + intros Hv. apply Herror. rewrite Hv. split; [done|].
      by apply Atoi_rejects.
    + apply Herror.
  - rewrite Herror. split.
    + intros [Hraw Hbad].
      destruct (containerEnv !! "AVOID_MASTERS") as [entry|] eqn:Hentry.
      * exists entry. by rewrite (index_lookup _ _ _ Hentry) in Hraw, Hbad.
      * by rewrite (index_absent _ _ Hentry) in Hraw.
    + intros (entry & Hentry & Hraw & Hbad).
      by rewrite (index_lookup _ _ _ Hentry).
Qed.

Lemma resolveAvoidMasters_spec_witness :
  (AvoidMasters
     (@getConfig Scenario.plainRuntime
        {["AVOID_MASTERS" := mkKv "AVOID_MASTERS" "0"]}).1 = 0
   ∧ (@getConfig Scenario.plainRuntime
        {["AVOID_MASTERS" := mkKv "AVOID_MASTERS" "0"]}).2 = None)
  ∧ (AvoidMasters
       (@getConfig Scenario.plainRuntime
          {["AVOID_MASTERS" := mkKv "AVOID_MASTERS" "1"]}).1 = 1
     ∧ (@getConfig Scenario.plainRuntime
          {["AVOID_MASTERS" := mkKv "AVOID_MASTERS" "1"]}).2 = None)
  ∧ (AvoidMasters
       (@getConfig Scenario.plainRuntime
          {["AVOID_MASTERS" := mkKv "AVOID_MASTERS" "-12"]}).1 = -12
     ∧ (@getConfig Scenario.plainRuntime
          {["AVOID_MASTERS" := mkKv "AVOID_MASTERS" "-12"]}).2 = None)
  ∧ is_Some (@getConfig Scenario.plainRuntime
               {["AVOID_MASTERS" := mkKv "AVOID_MASTERS" "bad"]}).2
  ∧ (AvoidMasters
       (@getConfig Scenario.plainRuntime
          {["AVOID_MASTERS" := mkKv "AVOID_MASTERS" ""]}).1 = 1
     ∧ (@getConfig Scenario.plainRuntime
          {["AVOID_MASTERS" := mkKv "AVOID_MASTERS" ""]}).2 = None)
  ∧ (AvoidMasters (@getConfig Scenario.plainRuntime ∅).1 = 1
     ∧ (@getConfig Scenario.plainRuntime ∅).2 = None).
Proof.
  refine (conj _ (conj _ (conj _ (conj _ (conj _ _))))).
  - destruct (@resolveAvoidMasters_spec Scenario.plainRuntime
                {["AVOID_MASTERS" := mkKv "AVOID_MASTERS" "0"]})
      as (_ & Hentry & _).
    destruct (Hentry (mkKv "AVOID_MASTERS" "0") eq_refl)
      as (_ & _ & Hzero & _).
    exact (Hzero eq_refl).
  - destruct (@resolveAvoidMasters_spec Scenario.plainRuntime
                {["AVOID_MASTERS" := mkKv "AVOID_MASTERS" "1"]})
      as (_ & Hentry & _).
    destruct (Hentry (mkKv "AVOID_MASTERS" "1") eq_refl)
      as (_ & _ & _ & Hone & _).
    exact (Hone eq_refl).
  - destruct (@resolveAvoidMasters_spec Scenario.plainRuntime
                {["AVOID_MASTERS" := mkKv "AVOID_MASTERS" "-12"]})
      as (_ & Hentry & _).
    destruct (Hentry (mkKv "AVOID_MASTERS" "-12") eq_refl)
      as (_ & Hvalid & _).
    apply Hvalid. apply Atoi_validInteger. reflexivity.
  - destruct (@resolveAvoidMasters_spec Scenario.plainRuntime
                {["AVOID_MASTERS" := mkKv "AVOID_MASTERS" "bad"]})
      as (_ & Hentry & _).
    destruct (Hentry (mkKv "AVOID_MASTERS" "bad") eq_refl)
      as (_ & _ & _ & _ & Hbad & _).
    exact (Hbad eq_refl).
  - destruct (@resolveAvoidMasters_spec Scenario.plainRuntime
                {["AVOID_MASTERS" := mkKv "AVOID_MASTERS" ""]})
      as (_ & Hentry & _).
    destruct (Hentry (mkKv "AVOID_MASTERS" "") eq_refl) as (Hempty & _).
    exact (Hempty eq_refl).
  - destruct (@resolveAvoidMasters_spec Scenario.plainRuntime ∅) as (Habs & _).
    exact (Habs eq_refl).
Defined.

(** ** C7: network discovery *)

Lemma eligibleNetworks_cons avoidNetworks network reported :
  eligibleNetworks avoidNetworks (network :: reported)
  = (if decide (Driver network = "overlay") then
       match avoidNetworks !! Name network with
       | None => [Name network]
       | Some _ => []
       end
     else []) ++ eligibleNetworks avoidNetworks reported.
Proof.
  unfold eligibleNetworks. rewrite filter_cons.
  destruct (decide (Driver network = "overlay")) as [Hd|Hd].
  - destruct (avoidNetworks !! Name network) eqn:Hl.
    + rewrite decide_False; [done|]. by intros [_ [=]].
    + by rewrite decide_True.
  - rewrite decide_False; [done|]. by intros [? _].
Qed.

Lemma eligibleNetworks_app avoidNetworks l1 l2 :
  eligibleNetworks avoidNetworks (l1 ++ l2)
  = eligibleNetworks avoidNetworks l1 ++ eligibleNetworks avoidNetworks l2.
Proof. unfold eligibleNetworks. by rewrite filter_app, fmap_app. Qed.

(** The loop of [getNetworkList] extends what it has collected by the
    eligible networks that remain. *)
Lemma selectNetworks_loop avoidNetworks reported (networks : list string) :
  fold_left
    (fun networks network =>
       if decide (Driver network = "overlay") then
         match avoidNetworks !! Name network with
         | None => networks ++ [Name network]
         | Some _ => networks
         end
       else networks)
    reported networks
  = networks ++ eligibleNetworks avoidNetworks reported.
Proof.
  revert networks. induction reported as [|network reported IH]; intros networks.
  - simpl. by rewrite app_nil_r.
  - cbn [fold_left]. rewrite IH, eligibleNetworks_cons.
    destruct (decide (Driver network = "overlay")).
    + destruct (avoidNetworks !! Name network); [done|]. by rewrite <- app_assoc.
    + done.
Qed.

Lemma selectNetworks_eligible avoidNetworks reported :
  selectNetworks avoidNetworks reported = eligibleNetworks avoidNetworks reported.
Proof. unfold selectNetworks. by rewrite selectNetworks_loop. Qed.

(** C7. When the platform answers, [getNetworkList] returns exactly the
    names of the reported networks whose driver is ["overlay"] and whose
    name is not in the avoid-set, in the reported order; a network with
    another driver contributes nothing, whatever the avoid-set. *)
Theorem getNetworkList_spec {World} `{Docker World}
    (avoidNetworks : gmap string string) (st : state World)
    (w' : World) (reported : list NetworkResource) :
  NewClient (world st) = None →
  NetworkList (world st) = (w', inl reported) →
  getNetworkList avoidNetworks st
  = (Return (eligibleNetworks avoidNetworks reported),
     mkState (heap st) (ticks st) w' (trace st))
  ∧ (∀ pre network post avoid',
       reported = pre ++ network :: post →
       Driver network ≠ "overlay" →
       eligibleNetworks avoid' reported = eligibleNetworks avoid' (pre ++ post)).
Proof.
  intros Hclient Hlist. split.
  - unfold getNetworkList, newClient, call, mbind, M_bind, mret, M_ret. simpl.
    rewrite Hclient. simpl. rewrite Hlist. simpl.
    by rewrite selectNetworks_eligible.
  - intros pre network post avoid' -> Hd.
    rewrite !eligibleNetworks_app, eligibleNetworks_cons.
    by rewrite decide_False.
Qed.

Lemma getNetworkList_spec_witness :
  @getNetworkList _ Scenario.scriptedDocker
    {["ingress" := "ingress"]}
    (Scenario.baseState
       (Scenario.mkScripted
          [mkNetwork "net-b" "overlay"; mkNetwork "ingress" "overlay";
           mkNetwork "bridge" "bridge"; mkNetwork "net-a" "overlay"] [] []))
  = (Return ["net-b"; "net-a"],
     Scenario.baseState
       (Scenario.mkScripted
          [mkNetwork "net-b" "overlay"; mkNetwork "ingress" "overlay";
           mkNetwork "bridge" "bridge"; mkNetwork "net-a" "overlay"] [] [])).
Proof.
  exact (proj1 (@getNetworkList_spec _ Scenario.scriptedDocker
                  {["ingress" := "ingress"]} _ _ _ eq_refl eq_refl)).
Defined.

(** ** The environment transformer *)

(** On a network bound to a map object, [setAndGetContainerEnv] rewrites
    that object and nothing else, and returns the reference. *)
Lemma setAndGetContainerEnv_run {World} (cfg : envs) (network : string) (l : loc)
    (st : state World) :
  cfg !! network = Some (Some l) →
  setAndGetContainerEnv cfg network st
  = (Return (Some l),
     mkState (<[l := transformed network (deref (heap st) (Some l))]> (heap st))
             (ticks st) (world st) (trace st)).
Proof.
  intros Hcfg. unfold setAndGetContainerEnv. rewrite Hcfg. run.
  rewrite lookup_insert_eq. simpl. by rewrite insert_insert_eq.
Qed.

(** On a network that is not bound, or bound to [nil], the first write
    panics. *)
Lemma setAndGetContainerEnv_nil {World} (cfg : envs) (network : string)
    (st : state World) :
  default None (cfg !! network) = None →
  setAndGetContainerEnv cfg network st
  = (Panic "assignment to entry in nil map", st).
Proof. intros Hcfg. unfold setAndGetContainerEnv. rewrite Hcfg. by run. Qed.

(** The transformation writes to one map object: an environment held at
    another location is not touched. *)
Lemma setAndGetContainerEnv_frame {World} (cfg : envs) (network : string)
    (l l' : loc) (st : state World) :
  cfg !! network = Some (Some l) →
  l' ≠ l →
  heap (setAndGetContainerEnv cfg network st).2 !! l' = heap st !! l'.
Proof.
  intros Hcfg Hne. rewrite (setAndGetContainerEnv_run cfg network l st Hcfg).
  simpl. by rewrite lookup_insert_ne.
Qed.

Lemma append_length (a b : string) :
  String.length (a +:+ b) = (String.length a + String.length b)%nat.
Proof. induction a as [|c a IH]; simpl; [done|by rewrite IH]. Qed.

Lemma append_assoc (a b c : string) : (a +:+ b) +:+ c = a +:+ (b +:+ c).
Proof.
  induction a as [|x a IH]; [done|].
  change (String x ((a +:+ b) +:+ c) = String x (a +:+ (b +:+ c))).
  by rewrite IH.
Qed.

(** Appending the same suffix to different strings gives different
    strings. *)
Lemma append_inj_l (a b c : string) : a +:+ c = b +:+ c → a = b.
Proof.
  revert b. induction a as [|x a IH]; intros [|y b] Heq; simpl in Heq.
  - done.
  - apply (f_equal String.length) in Heq.
    rewrite !append_length in Heq. simpl in Heq. lia.
  - apply (f_equal String.length) in Heq.
    rewrite !append_length in Heq. simpl in Heq. lia.
  - injection Heq as -> Heq. by rewrite (IH b Heq).
Qed.

(** A derived name determines the network it was derived for. *)
Lemma derived_name_inj (S V N1 N2 : string) :
  (S +:+ "_" +:+ N1) +:+ "_" +:+ V = (S +:+ "_" +:+ N2) +:+ "_" +:+ V → N1 = N2.
Proof.
  intros Heq. apply append_inj_l in Heq.
  apply (inj (String.append S)) in Heq.
  by apply (inj (String.append "_")) in Heq.
Qed.

(** ** C3: what the transformation writes *)

(** C3. For an environment holding [STACK_NAME] with value [S] and
    [SERVICE_NAME] with value [V], one transformation for the network [N]
    leaves [STACK_NAME] with the value [S_N] (under its old key), enters
    [SERVICE_SPEC_NAME] with the value [S_N_V], and leaves [SERVICE_NAME],
    [IMAGE] and every other entry as they were. *)
Theorem setAndGetContainerEnv_spec {World} (cfg : envs) (N : string) (l : loc)
    (st : state World) (base : envData) (stack service : kv) :
  cfg !! N = Some (Some l) →
  heap st !! l = Some base →
  base !! "STACK_NAME" = Some stack →
  base !! "SERVICE_NAME" = Some service →
  ∃ st' m',
    setAndGetContainerEnv cfg N st = (Return (Some l), st')
    ∧ heap st' !! l = Some m'
    ∧ m' !! "STACK_NAME"
      = Some {| key := key stack; value := value stack +:+ "_" +:+ N |}
    ∧ m' !! "SERVICE_SPEC_NAME"
      = Some {| key := "SERVICE_SPEC_NAME";
                value := value stack +:+ "_" +:+ N +:+ "_" +:+ value service |}
    ∧ m' !! "SERVICE_NAME" = base !! "SERVICE_NAME"
    ∧ m' !! "IMAGE" = base !! "IMAGE"
    ∧ (∀ k, k ≠ "STACK_NAME" → k ≠ "SERVICE_SPEC_NAME" → m' !! k = base !! k).
Proof.
  intros Hcfg Hl Hstack Hservice.
  eexists _, _. split; [by apply setAndGetContainerEnv_run|].
  simpl. rewrite lookup_insert_eq, Hl. simpl.
  unfold transformed, index. rewrite Hstack, Hservice. simpl.
  split_and!; try done.
  - by rewrite lookup_insert_ne, lookup_insert_eq.
  - rewrite lookup_insert_eq. do 2 f_equal.
    by rewrite !append_assoc.
  - by rewrite !lookup_insert_ne.
  - by rewrite !lookup_insert_ne.
  - intros k Hk1 Hk2. by rewrite !lookup_insert_ne.
Qed.

Lemma setAndGetContainerEnv_spec_witness :
  ∃ st' m',
    setAndGetContainerEnv {["net-a" := Some 1%positive]} "net-a"
      (Scenario.baseState tt) = (Return (Some 1%positive), st')
    ∧ heap st' !! 1%positive = Some m'
    ∧ m' !! "STACK_NAME" = Some {| key := "STACK_NAME"; value := "app_net-a" |}
    ∧ m' !! "SERVICE_SPEC_NAME"
      = Some {| key := "SERVICE_SPEC_NAME"; value := "app_net-a_svc" |}
    ∧ m' !! "SERVICE_NAME" = Scenario.baseEnv !! "SERVICE_NAME"
    ∧ m' !! "IMAGE" = Scenario.baseEnv !! "IMAGE"
    ∧ (∀ k, k ≠ "STACK_NAME" → k ≠ "SERVICE_SPEC_NAME" →
         m' !! k = Scenario.baseEnv !! k).
Proof.
  exact (setAndGetContainerEnv_spec
           {["net-a" := Some 1%positive]} "net-a" 1%positive
           (Scenario.baseState tt) Scenario.baseEnv
           (mkKv "STACK_NAME" "app") (mkKv "SERVICE_NAME" "svc")
           eq_refl eq_refl eq_refl eq_refl).
Defined.

(** ** C6: distinct networks give distinct service-spec names *)

(** C6. When two distinct networks are bound to two distinct map objects
    with the same contents, transforming one and then the other leaves
    different [SERVICE_SPEC_NAME] values in the two environments. *)
Theorem service_spec_names_distinct {World} (cfg : envs) (N1 N2 : string)
    (l1 l2 : loc) (base : envData) (st : state World) :
  N1 ≠ N2 →
  l1 ≠ l2 →
  cfg !! N1 = Some (Some l1) →
  cfg !! N2 = Some (Some l2) →
  heap st !! l1 = Some base →
  heap st !! l2 = Some base →
  ∃ st',
    (setAndGetContainerEnv cfg N1 ;; setAndGetContainerEnv cfg N2) st
    = (Return (Some l2), st')
    ∧ getServiceSpecName (deref (heap st') (Some l1))
      = (value (index base "STACK_NAME") +:+ "_" +:+ N1)
          +:+ "_" +:+ value (index base "SERVICE_NAME")
    ∧ getServiceSpecName (deref (heap st') (Some l2))
      = (value (index base "STACK_NAME") +:+ "_" +:+ N2)
          +:+ "_" +:+ value (index base "SERVICE_NAME")
    ∧ getServiceSpecName (deref (heap st') (Some l1))
      ≠ getServiceSpecName (deref (heap st') (Some l2)).
Proof.
  intros HN Hl Hc1 Hc2 Hh1 Hh2.
  eexists. split.
  { unfold mbind, M_bind. rewrite (setAndGetContainerEnv_run cfg N1 l1 st Hc1).
    by rewrite (setAndGetContainerEnv_run cfg N2 l2 _ Hc2). }
  simpl. rewrite lookup_insert_eq.
  rewrite (lookup_insert_ne _ l2 l1) by done. rewrite lookup_insert_eq.
  rewrite (lookup_insert_ne _ l1 l2) by done. rewrite Hh1, Hh2. simpl.
  assert (∀ N, getServiceSpecName (transformed N base)
               = (value (index base "STACK_NAME") +:+ "_" +:+ N)
                   +:+ "_" +:+ value (index base "SERVICE_NAME")) as Hname.
  { intros N. unfold getServiceSpecName, transformed, index at 1.
    by rewrite lookup_insert_eq. }
  rewrite !Hname. split_and!; [done|done|].
  intros Heq. by apply derived_name_inj in Heq.
Qed.

Lemma service_spec_names_distinct_witness :
  ∃ st',
    (setAndGetContainerEnv
       {["net-a" := Some 1%positive; "net-b" := Some 2%positive]} "net-a" ;;
     setAndGetContainerEnv
       {["net-a" := Some 1%positive; "net-b" := Some 2%positive]} "net-b")
      (mkState {[1%positive := Scenario.baseEnv; 2%positive := Scenario.baseEnv]}
               0 tt [])
    = (Return (Some 2%positive), st')
    ∧ getServiceSpecName (deref (heap st') (Some 1%positive)) = "app_net-a_svc"
    ∧ getServiceSpecName (deref (heap st') (Some 2%positive)) = "app_net-b_svc"
    ∧ getServiceSpecName (deref (heap st') (Some 1%positive))
      ≠ getServiceSpecName (deref (heap st') (Some 2%positive)).
Proof.
  refine (service_spec_names_distinct
            {["net-a" := Some 1%positive; "net-b" := Some 2%positive]}
            "net-a" "net-b" 1%positive 2%positive Scenario.baseEnv
            (mkState {[1%positive := Scenario.baseEnv; 2%positive := Scenario.baseEnv]}
                     0 tt [])
            _ _ eq_refl eq_refl eq_refl eq_refl); discriminate.
Defined.

(** ** C4: the service specification *)

(** On a network bound to a map object, [getServiceDefinition] transforms
    the environment and builds the specification from what it then holds;
    the one [range] statement advances the tick. *)
Lemma getServiceDefinition_run `{Runtime} {World} (replicas : Z)
    (network : string) (cfg : envs) (l : loc) (st : state World) :
  cfg !! network = Some (Some l) →
  let m := transformed network (deref (heap st) (Some l)) in
  getServiceDefinition replicas network cfg st
  = (Return
       {| SpecName := getServiceSpecName m;
          Labels := {[ "com.docker.stack.image" := getImage m;
                       "com.docker.stack.namespace" := getStackName m ]};
          TaskTemplate :=
            {| Container :=
                 {| Image := getImage m;
                    Command := ["/go/bin/pinger"];
                    Env := map (fun entry =>
                                  key (snd entry) +:+ "=" +:+ value (snd entry))
                               (rangeOrder (ticks st) m) |};
               Networks := [{| Target := network; Aliases := [getServiceName m] |}] |};
          Replicas := replicas |},
     mkState (<[l := m]> (heap st)) (S (ticks st)) (world st) (trace st)).
Proof.
  intros Hcfg m. unfold getServiceDefinition.
  unfold mbind at 1, M_bind at 1.
  rewrite (setAndGetContainerEnv_run cfg network l st Hcfg).
  unfold getContainerEnv, range. run. rewrite lookup_insert_eq. done.
Qed.

(** Whatever order the map is visited in, the environment handed to the
    container is the [KEY=VALUE] rendering of the entries of the transformed
    environment, each once. *)
Lemma getServiceDefinition_Env `{Runtime} {World} (replicas : Z)
    (network : string) (cfg : envs) (l : loc) (st : state World) :
  cfg !! network = Some (Some l) →
  ∃ spec st' m',
    getServiceDefinition replicas network cfg st = (Return spec, st')
    ∧ heap st' !! l = Some m'
    ∧ Env (Container (TaskTemplate spec))
      ≡ₚ (fun entry => key (snd entry) +:+ "=" +:+ value (snd entry))
           <$> map_to_list m'.
Proof.
  intros Hcfg. eexists _, _, _.
  split; [by apply getServiceDefinition_run|].
  simpl. rewrite lookup_insert_eq. split; [done|].
  apply fmap_Permutation, rangeOrder_perm.
Qed.

(** C4 (amended). The built specification takes its name from the
    transformed environment's [SERVICE_SPEC_NAME], its image from [IMAGE],
    has the command [["/go/bin/pinger"]], is attached to the network under
    the one alias [SERVICE_NAME], carries the replica count it was given,
    and has exactly the two labels ["com.docker.stack.image"] (the [IMAGE]
    value) and ["com.docker.stack.namespace"] (the [STACK_NAME] value). *)
Theorem getServiceDefinition_spec `{Runtime} {World} (replicas : Z)
    (network : string) (cfg : envs) (l : loc) (st : state World) :
  cfg !! network = Some (Some l) →
  ∃ spec st' m',
    getServiceDefinition replicas network cfg st = (Return spec, st')
    ∧ heap st' !! l = Some m'
    ∧ SpecName spec = value (index m' "SERVICE_SPEC_NAME")
    ∧ Image (Container (TaskTemplate spec)) = value (index m' "IMAGE")
    ∧ Command (Container (TaskTemplate spec)) = ["/go/bin/pinger"]
    ∧ Networks (TaskTemplate spec)
      = [{| Target := network; Aliases := [value (index m' "SERVICE_NAME")] |}]
    ∧ Replicas spec = replicas
    ∧ Labels spec
      = {[ "com.docker.stack.image" := value (index m' "IMAGE");
           "com.docker.stack.namespace" := value (index m' "STACK_NAME") ]}.
Proof.
  intros Hcfg. eexists _, _, _.
  split; [by apply getServiceDefinition_run|].
  simpl. rewrite lookup_insert_eq. done.
Qed.

Lemma getServiceDefinition_spec_witness :
  ∃ spec st' m',
    (@getServiceDefinition Scenario.plainRuntime _ 3 "net-a"
       {["net-a" := Some 1%positive]} (Scenario.baseState tt) = (Return spec, st')
     ∧ heap st' !! 1%positive = Some m'
     ∧ SpecName spec = value (index m' "SERVICE_SPEC_NAME")
     ∧ Image (Container (TaskTemplate spec)) = value (index m' "IMAGE")
     ∧ Command (Container (TaskTemplate spec)) = ["/go/bin/pinger"]
     ∧ Networks (TaskTemplate spec)
       = [{| Target := "net-a"; Aliases := [value (index m' "SERVICE_NAME")] |}]
     ∧ Replicas spec = 3
     ∧ Labels spec
       = {[ "com.docker.stack.image" := value (index m' "IMAGE");
            "com.docker.stack.namespace" := value (index m' "STACK_NAME") ]})
    ∧ SpecName spec = "app_net-a_svc"
    ∧ Image (Container (TaskTemplate spec)) = "img:v1"
    ∧ Networks (TaskTemplate spec)
      = [{| Target := "net-a"; Aliases := ["svc"] |}]
    ∧ Labels spec
      = {[ "com.docker.stack.image" := "img:v1";
           "com.docker.stack.namespace" := "app_net-a" ]}.
Proof.
  assert (({["net-a" := Some 1%positive]} : envs) !! "net-a"
          = Some (Some 1%positive)) as Hcfg by reflexivity.
  destruct (@getServiceDefinition_spec Scenario.plainRuntime _ 3 "net-a"
              {["net-a" := Some 1%positive]} 1%positive (Scenario.baseState tt)
              Hcfg)
    as (spec & st' & m' & Hrun & Hrest).
  exists spec, st', m'. split; [exact (conj Hrun Hrest)|].
  rewrite (@getServiceDefinition_run Scenario.plainRuntime _ 3 "net-a"
             {["net-a" := Some 1%positive]} 1%positive (Scenario.baseState tt)
             Hcfg) in Hrun.
  injection Hrun as <- <-.
  split_and!; reflexivity.
Defined.

(** The labels are not filed under ["stack.image"] and
    ["stack.namespace"]: in the scenario's specification for [net-a] there
    is no label ["stack.image"]. *)
Lemma labels_not_under_short_keys :
  ∃ spec st',
    @getServiceDefinition Scenario.plainRuntime _ 3 "net-a"
      {["net-a" := Some 1%positive]} (Scenario.baseState tt) = (Return spec, st')
    ∧ Labels spec !! "stack.image" = None
    ∧ Labels spec !! "stack.namespace" = None
    ∧ Labels spec
      ≠ {[ "stack.image" := getImage (deref (heap st') (Some 1%positive));
           "stack.namespace" := getStackName (deref (heap st') (Some 1%positive)) ]}.
Proof.
  eexists _, _. split; [vm_compute; reflexivity|].
  split; [reflexivity|]. split; [reflexivity|].
  intros Heq. apply (f_equal (fun labels => labels !! "stack.image")) in Heq.
  vm_compute in Heq. discriminate.
Qed.

(** ** C5: the deployer *)

Lemma submitted_app (tr1 tr2 : list event) :
  submitted (tr1 ++ tr2) = submitted tr1 ++ submitted tr2.
Proof. unfold submitted. by rewrite flat_map_app. Qed.

Lemma submitted_confirmations (l : list ServiceSpec) :
  submitted (flat_map confirmation l) = l.
Proof. induction l as [|work l IH]; simpl; [done|]. by f_equal. Qed.

Section Deployer.
Context {World : Type} `{Docker World}.

Lemma deploy_cons_ok (work : ServiceSpec) (rest : list ServiceSpec)
    (st : state World) (w' : World) :
  ServiceCreate (world st) work = (w', None) →
  deploy (work :: rest) st
  = deploy rest (mkState (heap st) (ticks st) w' (trace st ++ confirmation work)).
Proof.
  intros Hok. unfold deploy, serviceCreate. cbn [for_each]. run.
  rewrite Hok. simpl. by rewrite <- app_assoc.
Qed.

Lemma deploy_cons_fail (work : ServiceSpec) (rest : list ServiceSpec)
    (st : state World) (w' : World) (msg : string) :
  ServiceCreate (world st) work = (w', Some msg) →
  deploy (work :: rest) st
  = (Fatal ("unable to create service: " +:+ msg +:+ LF),
     mkState (heap st) (ticks st) w' (trace st ++ [Created work (Some msg)])).
Proof.
  intros Hfail. unfold deploy, serviceCreate, fatal. cbn [for_each]. run.
  by rewrite Hfail.
Qed.

(** Once a prefix has been deployed, the rest is deployed from the state
    the prefix left. *)
Lemma deploy_app (pre rest : list ServiceSpec) (st st1 : state World) :
  deploy pre st = (Return tt, st1) →
  deploy (pre ++ rest) st = deploy rest st1.
Proof.
  revert st. induction pre as [|work pre IH]; intros st Hpre.
  - by injection Hpre as ->.
  - destruct (ServiceCreate (world st) work) as [w' [msg|]] eqn:Hcall.
    + by rewrite (deploy_cons_fail _ _ _ _ _ Hcall) in Hpre.
    + rewrite (deploy_cons_ok _ _ _ _ Hcall) in Hpre.
      cbn [app]. rewrite (deploy_cons_ok _ _ _ _ Hcall). by apply IH.
Qed.

(** A run that returns has confirmed every entry, in order, and touched
    only the platform and the trace. *)
Lemma deploy_return (l : list ServiceSpec) (st st1 : state World) :
  deploy l st = (Return tt, st1) →
  trace st1 = trace st ++ flat_map confirmation l
  ∧ heap st1 = heap st ∧ ticks st1 = ticks st.
Proof.
  revert st. induction l as [|work l IH]; intros st Hrun.
  - injection Hrun as <-. by rewrite app_nil_r.
  - destruct (ServiceCreate (world st) work) as [w' [msg|]] eqn:Hcall.
    + by rewrite (deploy_cons_fail _ _ _ _ _ Hcall) in Hrun.
    + rewrite (deploy_cons_ok _ _ _ _ Hcall) in Hrun.
      destruct (IH _ Hrun) as (-> & -> & ->). simpl.
      by rewrite <- app_assoc.
Qed.

(** C5. The entries are submitted in worklist order, each success followed
    by its confirmation; when the call for an entry fails the run ends
    there, and no later entry is submitted. *)
Theorem deploy_fail_fast (pre post : list ServiceSpec) (work : ServiceSpec)
    (st st1 : state World) :
  deploy pre st = (Return tt, st1) →
  trace st1 = trace st ++ flat_map confirmation pre
  ∧ submitted (trace st1) = submitted (trace st) ++ pre
  ∧ ∀ w2 msg,
      ServiceCreate (world st1) work = (w2, Some msg) →
      ∃ st2,
        deploy (pre ++ work :: post) st
        = (Fatal ("unable to create service: " +:+ msg +:+ LF), st2)
        ∧ trace st2
          = trace st ++ flat_map confirmation pre ++ [Created work (Some msg)]
        ∧ submitted (trace st2) = submitted (trace st) ++ pre ++ [work]
        ∧ world st2 = w2.
Proof.
  intros Hpre. destruct (deploy_return _ _ _ Hpre) as (Htr & _ & _).
  split; [done|]. split.
  { by rewrite Htr, submitted_app, submitted_confirmations. }
  intros w2 msg Hfail. eexists. split.
  { rewrite (deploy_app _ _ _ _ Hpre). by apply deploy_cons_fail. }
  simpl. rewrite Htr, <- app_assoc. split; [done|]. split; [|done].
  rewrite !submitted_app, submitted_confirmations. done.
Qed.

End Deployer.

Lemma deploy_fail_fast_witness :
  ∃ st2,
    @deploy _ Scenario.scriptedDocker
      [Scenario.service "one"; Scenario.service "two"; Scenario.service "three"]
      (Scenario.baseState Scenario.secondFails)
    = (Fatal ("unable to create service: " +:+ "no such image" +:+ LF), st2)
    ∧ trace st2
      = [Created (Scenario.service "one") None;
         Printed ("created server: " +:+ "one" +:+ LF);
         Created (Scenario.service "two") (Some "no such image")]
    ∧ submitted (trace st2) = [Scenario.service "one"; Scenario.service "two"]
    ∧ world st2 = Scenario.mkScripted [] [] [].
Proof.
  destruct (@deploy_fail_fast _ Scenario.scriptedDocker
              [Scenario.service "one"] [Scenario.service "three"]
              (Scenario.service "two")
              (Scenario.baseState Scenario.secondFails)
              (mkState {[ 1%positive := Scenario.baseEnv ]} 0
                 (Scenario.mkScripted [] [] [Some "no such image"])
                 (confirmation (Scenario.service "one")))
              eq_refl) as (_ & _ & Hfail).
  destruct (Hfail (Scenario.mkScripted [] [] []) "no such image" eq_refl)
    as (st2 & Hrun & Htrace & Hsub & Hworld).
  exists st2. split_and!; assumption.
Defined.

(** ** C1: one environment behind every network *)

(** Every discovered network is bound to the environment that was loaded:
    the bindings are references to one map object, not copies of it. *)
Lemma makeConfigs_lookup (containerEnv : env) (networks : list string) (n : string) :
  n ∈ networks → makeConfigs containerEnv networks !! n = Some containerEnv.
Proof.
  unfold makeConfigs.
  assert (∀ (acc : envs),
            fold_left (fun configs network => <[network := containerEnv]> configs)
              networks acc !! n
            = if decide (n ∈ networks) then Some containerEnv else acc !! n) as Hfold.
  { induction networks as [|x networks IH]; intros acc; cbn [fold_left].
    - rewrite decide_False; [done|apply not_elem_of_nil].
    - rewrite IH. destruct (decide (n ∈ networks)) as [Hin|Hin].
      + rewrite decide_True; [done|by right].
      + destruct (decide (n = x)) as [->|Hne].
        * rewrite decide_True; [|by left]. by rewrite lookup_insert_eq.
        * rewrite decide_False; [by rewrite lookup_insert_ne|].
          intros [?|?]%elem_of_cons; done. }
  intros Hin. rewrite Hfold. by rewrite decide_True.
Qed.

(** C1 (what the code does). In the scenario, the bindings that [main]
    makes for [net-a] and [net-b] are the same reference, and the
    transformation for [net-a] changes what [net-b] reads: its
    [STACK_NAME] is no longer the base value and it already holds a
    [SERVICE_SPEC_NAME]. *)
Theorem transformation_reaches_other_networks :
  let configs := makeConfigs (Some 1%positive) ["net-a"; "net-b"] in
  configs !! "net-a" = Some (Some 1%positive)
  ∧ configs !! "net-b" = Some (Some 1%positive)
  ∧ getStackName
      (deref (heap (Scenario.baseState tt)) (default None (configs !! "net-b")))
    = "app"
  ∧ ∃ st',
      setAndGetContainerEnv configs "net-a" (Scenario.baseState tt)
      = (Return (Some 1%positive), st')
      ∧ getStackName (deref (heap st') (default None (configs !! "net-b")))
        = "app_net-a"
      ∧ deref (heap st') (default None (configs !! "net-b")) !! "SERVICE_SPEC_NAME"
        = Some {| key := "SERVICE_SPEC_NAME"; value := "app_net-a_svc" |}.
Proof.
  intros configs.
  assert (configs !! "net-a" = Some (Some 1%positive)) as Ha.
  { apply makeConfigs_lookup. set_solver. }
  assert (configs !! "net-b" = Some (Some 1%positive)) as Hb.
  { apply makeConfigs_lookup. set_solver. }
  split; [exact Ha|]. split; [exact Hb|].
  replace (default None (configs !! "net-b")) with (Some 1%positive)
    by (by rewrite Hb).
  split; [reflexivity|].
  eexists. split; [by apply setAndGetContainerEnv_run|].
  split; reflexivity.
Qed.

(** ** C2: the end-to-end scenario *)

(** One turn of the loop that builds the worklist. *)
Lemma buildWorklist_cons `{Runtime} {World} (network : string)
    (rest nodes : list string) (configs : envs) (worklist : list ServiceSpec)
    (s : ServiceSpec) (st st' : state World) :
  getServiceDefinition (uint64 (Z.of_nat (length nodes))) network configs st
  = (Return s, st') →
  buildWorklist (network :: rest) nodes configs worklist st
  = buildWorklist rest nodes configs (worklist ++ [s]) st'.
Proof. intros Hs. cbn [buildWorklist]. unfold mbind, M_bind. by rewrite Hs. Qed.

(** C2 (what the code does). For the base environment
    [{STACK_NAME: app, SERVICE_NAME: svc, IMAGE: img:v1}], the networks
    [net-a] and [net-b] and three nodes, the worklist has two entries with
    three replicas each, attached to [net-a] and [net-b]; the first is named
    [app_net-a_svc] in the namespace [app_net-a], but the second is named
    [app_net-a_net-b_svc] in the namespace [app_net-a_net-b]. *)
Theorem scenario_worklist `{Runtime} {World} (w : World) :
  ∃ worklist st',
    buildWorklist ["net-a"; "net-b"] ["w1"; "w2"; "w3"]
      (makeConfigs (Some 1%positive) ["net-a"; "net-b"]) [] (Scenario.baseState w)
    = (Return worklist, st')
    ∧ SpecName <$> worklist = ["app_net-a_svc"; "app_net-a_net-b_svc"]
    ∧ Replicas <$> worklist = [3; 3]
    ∧ (fun spec => Target <$> Networks (TaskTemplate spec)) <$> worklist
      = [["net-a"]; ["net-b"]]
    ∧ (fun spec => Labels spec !! "com.docker.stack.image") <$> worklist
      = [Some "img:v1"; Some "img:v1"]
    ∧ (fun spec => Labels spec !! "com.docker.stack.namespace") <$> worklist
      = [Some "app_net-a"; Some "app_net-a_net-b"].
Proof.
  pose proof (makeConfigs_lookup (Some 1%positive) ["net-a"; "net-b"] "net-a") as Ha.
  pose proof (makeConfigs_lookup (Some 1%positive) ["net-a"; "net-b"] "net-b") as Hb.
  eexists _, _. split.
  { erewrite buildWorklist_cons;
      [|apply getServiceDefinition_run, Ha; set_solver].
    erewrite buildWorklist_cons;
      [|apply getServiceDefinition_run, Hb; set_solver].
    reflexivity. }
  split_and!; reflexivity.
Qed.

(** The whole of [main] on the scenario's cluster: both services are
    created, under the names of the worklist above. *)
Example scenario_main :
  let run := @main Scenario.plainRuntime _ Scenario.scriptedDocker
               (Some 1%positive) (Scenario.baseState Scenario.cluster) in
  run.1 = Return tt
  ∧ SpecName <$> submitted (trace run.2) = ["app_net-a_svc"; "app_net-a_net-b_svc"].
Proof. vm_compute. done. Qed.

(** * Further properties of the program *)

(** ** The key-value parser on lines with fewer than two ['='] *)

(** No piece of a split holds the separator. *)
Lemma Split_pieces_no_sep (s : string) (sep : ascii) :
  Forall (fun piece => GoStrings.Count piece sep = 0%nat) (GoStrings.Split s sep).
Proof.
  induction s as [|c s IH]; cbn [GoStrings.Split].
  - by constructor.
  - destruct (Ascii.eqb c sep) eqn:Hc.
    + by constructor.
    + destruct (GoStrings.Split s sep) as [|piece pieces].
      * constructor; [|done]. cbn [GoStrings.Count]. by rewrite Hc.
      * inversion IH as [|? ? Hpiece Hpieces]; subst.
        constructor; [|done]. cbn [GoStrings.Count]. by rewrite Hc.
Qed.

(** Neither the key nor the value that [getKeyValue] returns holds an
    ['=']. *)
Lemma getKeyValue_parts (data : string) :
  GoStrings.Count (getKeyValue data).1 "=" = 0%nat
  ∧ GoStrings.Count (getKeyValue data).2 "=" = 0%nat.
Proof.
  unfold getKeyValue.
  pose proof (Split_pieces_no_sep data "=") as Hall.
  pose proof (Split_nonempty data "=") as Hne.
  destruct (GoStrings.Split data "=") as [|k [|v rest]]; [done| |].
  - inversion Hall; subst. by rewrite decide_True by (simpl; lia).
  - inversion Hall as [|? ? Hk Hrest]; subst. inversion Hrest; subst.
    by rewrite decide_False by (simpl; lia).
Qed.

(** X1. A line without ['='] is a flag: the whole line is the key and the
    value is empty. *)
Theorem getKeyValue_flag (data : string) :
  GoStrings.Count data "=" = 0%nat → getKeyValue data = (data, "").
Proof.
  intros Hc. unfold getKeyValue. rewrite (Split_no_sep _ _ Hc).
  by rewrite decide_True by (simpl; lia).
Qed.

Lemma getKeyValue_flag_witness :
  getKeyValue "VERBOSE" = ("VERBOSE", "") ∧ getKeyValue "" = ("", "").
Proof.
  split.
  - exact (getKeyValue_flag "VERBOSE" eq_refl).
  - exact (getKeyValue_flag "" eq_refl).
Defined.

(** X2. The parser inverts the rendering: an entry whose key and value hold
    no ['='] is read back from its [KEY=VALUE] line as it was. *)
Theorem getKeyValue_rendering (entry : kv) :
  GoStrings.Count (key entry) "=" = 0%nat →
  GoStrings.Count (value entry) "=" = 0%nat →
  getKeyValue (rendering entry) = (key entry, value entry).
Proof.
  intros Hk Hv. unfold getKeyValue, rendering.
  change ("=" +:+ value entry) with (String "=" (value entry)).
  rewrite (Split_app_sep _ _ "=" Hk), (Split_no_sep _ _ Hv).
  by rewrite decide_False by (simpl; lia).
Qed.

Lemma getKeyValue_rendering_witness :
  getKeyValue (rendering (mkKv "IMAGE" "img:v1")) = ("IMAGE", "img:v1").
Proof. exact (getKeyValue_rendering (mkKv "IMAGE" "img:v1") eq_refl eq_refl). Defined.

(** ** Loading the environment *)

Section LoaderFacts.
Context `{Strings} `{Runtime} {World : Type} `{Docker World}.

(** One turn of the scanning loop enters the line's entry, if it has one,
    into the map object. *)
Lemma scanLine_run (l : loc) (text : string) (st : state World) :
  scanLine (Some l) text st
  = (Return tt,
     match lineEntry text with
     | Some (k, entry) =>
         mkState (<[l := <[k := entry]> (deref (heap st) (Some l))]> (heap st))
                 (ticks st) (world st) (trace st)
     | None => st
     end).
Proof.
  unfold scanLine, lineEntry.
  destruct (HasPrefix (TrimSpace text) "#"); simpl; [done|].
  by destruct (getKeyValue (TrimSpace text)).
Qed.

Lemma scan_run (l : loc) (lines : list string) (m : envData) (st : state World) :
  heap st !! l = Some m →
  for_each lines (scanLine (Some l)) st
  = (Return tt,
     mkState (<[l := loadInto m lines]> (heap st)) (ticks st) (world st) (trace st)).
Proof.
  revert m st. induction lines as [|text lines IH]; intros m st Hm.
  - simpl. unfold mret, M_ret. rewrite insert_id by done. by destruct st.
  - cbn [for_each]. unfold mbind, M_bind. rewrite scanLine_run.
    unfold loadInto. cbn [fold_left]. fold (loadInto).
    destruct (lineEntry text) as [[k entry]|].
    + erewrite IH; [|simpl; apply lookup_insert_eq].
      simpl. rewrite Hm. simpl. by rewrite insert_insert_eq.
    + by apply IH.
Qed.

(** The loader makes one new map object and fills it with the lines. *)
Lemma getcontainerEnv_run (lines : list string) (st : state World) :
  getcontainerEnv (inl lines) st
  = (Return (Some (fresh (dom (heap st)))),
     mkState (<[fresh (dom (heap st)) := loadInto ∅ lines]> (heap st))
             (ticks st) (world st) (trace st)).
Proof.
  unfold getcontainerEnv, make, mbind, M_bind.
  erewrite scan_run; [|simpl; apply lookup_insert_eq].
  simpl. by rewrite insert_insert_eq.
Qed.

End LoaderFacts.

Section LoadedEntries.
Context `{Strings}.

Lemma loadInto_app (m : envData) (lines1 lines2 : list string) :
  loadInto m (lines1 ++ lines2) = loadInto (loadInto m lines1) lines2.
Proof. unfold loadInto. by rewrite fold_left_app. Qed.

Lemma loadInto_snoc (m : envData) (lines : list string) (text : string) :
  loadInto m (lines ++ [text])
  = match lineEntry text with
    | Some (k, entry) => <[k := entry]> (loadInto m lines)
    | None => loadInto m lines
    end.
Proof. by rewrite loadInto_app. Qed.

(** The entry of a line is filed under its own key, and neither its key nor
    its value holds an ['=']. *)
Lemma lineEntry_shape (text k : string) (entry : kv) :
  lineEntry text = Some (k, entry) →
  key entry = k
  ∧ GoStrings.Count k "=" = 0%nat
  ∧ GoStrings.Count (value entry) "=" = 0%nat.
Proof.
  unfold lineEntry. destruct (HasPrefix (TrimSpace text) "#"); [done|].
  intros [= <- <-]. simpl.
  destruct (getKeyValue_parts (TrimSpace text)) as [Hk Hv]. done.
Qed.

(** What is found under a key: the entry of the last line that has this
    key, or what was there before when no line has it. *)
Lemma loadInto_lookup (m : envData) (lines : list string) (k : string) :
  loadInto m lines !! k
  = match last (filter (fun text => fst <$> lineEntry text = Some k) lines) with
    | Some text => snd <$> lineEntry text
    | None => m !! k
    end.
Proof.
  induction lines as [|text lines IH] using rev_ind; [done|].
  rewrite loadInto_snoc, filter_app, filter_cons, filter_nil.
  destruct (lineEntry text) as [[k' entry]|] eqn:Hentry.
  - destruct (decide (k' = k)) as [->|Hne].
    + rewrite decide_True by done. rewrite last_snoc, Hentry. simpl.
      apply lookup_insert_eq.
    + rewrite decide_False by (simpl; congruence). rewrite app_nil_r.
      by rewrite lookup_insert_ne.
  - rewrite decide_False by done. by rewrite app_nil_r.
Qed.

End LoadedEntries.

Section LoaderProperties.
Context `{Strings} `{Runtime} {World : Type} `{Docker World}.

(** X3. The loader returns a map object that was not there before and
    leaves every other object, the platform and the trace as they were;
    when the file cannot be opened the process exits with that error and
    nothing is made. *)
Theorem getcontainerEnv_fresh (file : list string + string) (st : state World) :
  match file with
  | inr err => getcontainerEnv file st = (Fatal err, st)
  | inl lines =>
      ∃ l st',
        getcontainerEnv file st = (Return (Some l), st')
        ∧ heap st !! l = None
        ∧ is_Some (heap st' !! l)
        ∧ (∀ l', l' ≠ l → heap st' !! l' = heap st !! l')
        ∧ ticks st' = ticks st ∧ world st' = world st ∧ trace st' = trace st
  end.
Proof.
  destruct file as [lines|err]; [|done].
  eexists _, _. split; [apply getcontainerEnv_run|]. simpl.
  split_and!; try done.
  - apply not_elem_of_dom, is_fresh.
  - rewrite lookup_insert_eq. eauto.
  - intros l' Hne. by rewrite lookup_insert_ne.
Qed.

(** X4. Every entry of the loaded environment is filed under its own key,
    holds no ['='] in key or value, and is what [getKeyValue] reads from
    some line of the file that is not a comment. *)
Theorem getcontainerEnv_entries (lines : list string) (st : state World) :
  ∃ l st' m,
    getcontainerEnv (inl lines) st = (Return (Some l), st')
    ∧ heap st' !! l = Some m
    ∧ ∀ k entry,
        m !! k = Some entry →
        key entry = k
        ∧ GoStrings.Count k "=" = 0%nat
        ∧ GoStrings.Count (value entry) "=" = 0%nat
        ∧ ∃ text,
            text ∈ lines
            ∧ HasPrefix (TrimSpace text) "#" = false
            ∧ getKeyValue (TrimSpace text) = (k, value entry).
Proof.
  eexists _, _, _. split; [apply getcontainerEnv_run|]. simpl.
  split; [apply lookup_insert_eq|].
  intros k entry. rewrite loadInto_lookup, lookup_empty.
  destruct (last _) as [text|] eqn:Hlast; [|done].
  apply last_Some_elem_of, list_elem_of_filter in Hlast as [Hkey Hin].
  destruct (lineEntry text) as [[k' entry']|] eqn:Hentry; [|done].
  simpl in Hkey. injection Hkey as ->. simpl. intros [= ->].
  destruct (lineEntry_shape _ _ _ Hentry) as (Hk & Hck & Hcv).
  split_and!; try done.
  exists text. split; [done|].
  unfold lineEntry in Hentry.
  destruct (HasPrefix (TrimSpace text) "#"); [done|].
  injection Hentry as <- <-. split; [done|].
  by destruct (getKeyValue (TrimSpace text)).
Qed.

(** X5. Among the lines the scanner yields, the last one that has a key
    decides what is found under it, comment lines apart; a key that none of
    the scanned lines has is absent. *)
Theorem getcontainerEnv_last_wins (lines : list string) (st : state World) :
  ∃ l st' m,
    getcontainerEnv (inl lines) st = (Return (Some l), st')
    ∧ heap st' !! l = Some m
    ∧ ∀ k,
        m !! k
        = match last (filter (fun text => fst <$> lineEntry text = Some k) lines) with
          | Some text => snd <$> lineEntry text
          | None => None
          end.
Proof.
  eexists _, _, _. split; [apply getcontainerEnv_run|]. simpl.
  split; [apply lookup_insert_eq|].
  intros k. by rewrite loadInto_lookup, lookup_empty.
Qed.

(** X6. A scanned line that starts with ['#'] once it is trimmed is
    skipped: on the scanned lines with it and on the same lines without it
    the loader gives the same result. *)
Theorem getcontainerEnv_comment (pre post : list string) (comment : string)
    (st : state World) :
  HasPrefix (TrimSpace comment) "#" = true →
  getcontainerEnv (inl (pre ++ comment :: post)) st
  = getcontainerEnv (inl (pre ++ post)) st.
Proof.
  intros Hc.
  assert (lineEntry comment = None) as Hentry.
  { unfold lineEntry. by rewrite Hc. }
  assert (∀ m, loadInto m (comment :: post) = loadInto m post) as Hskip.
  { intros m. unfold loadInto. cbn [fold_left]. by rewrite Hentry. }
  by rewrite !getcontainerEnv_run, !loadInto_app, Hskip.
Qed.

(** X7. A scanned line that is empty once it is trimmed is not skipped:
    it leaves an entry under the empty key in the loaded environment. *)
Theorem getcontainerEnv_blank_line (lines : list string) (blank : string)
    (st : state World) :
  blank ∈ lines →
  TrimSpace blank = "" →
  ∃ l st' m entry,
    getcontainerEnv (inl lines) st = (Return (Some l), st')
    ∧ heap st' !! l = Some m
    ∧ m !! "" = Some entry
    ∧ key entry = "".
Proof.
  intros Hin Hblank.
  assert (lineEntry blank = Some ("", {| key := ""; value := "" |})) as Hentry.
  { unfold lineEntry. by rewrite Hblank. }
  pose proof (loadInto_lookup ∅ lines "") as Hlookup.
  destruct (last (filter (fun text => fst <$> lineEntry text = Some "") lines))
    as [text|] eqn:Hlast.
  - apply last_Some_elem_of, list_elem_of_filter in Hlast as [Hkey _].
    destruct (lineEntry text) as [[k entry]|] eqn:Htext; [|done].
    simpl in Hkey. injection Hkey as ->. simpl in Hlookup.
    eexists _, _, _, entry. split; [apply getcontainerEnv_run|]. simpl.
    split; [apply lookup_insert_eq|]. split; [done|].
    by destruct (lineEntry_shape _ _ _ Htext) as [? _].
  - apply last_None in Hlast.
    assert (blank ∈ filter (fun text => fst <$> lineEntry text = Some "") lines)
      as Hfil.
    { apply list_elem_of_filter. split; [by rewrite Hentry|done]. }
    rewrite Hlast in Hfil. by apply elem_of_nil in Hfil.
Qed.

End LoaderProperties.

Lemma getcontainerEnv_comment_witness :
  @getcontainerEnv Scenario.asciiStrings unit
    (inl ["STACK_NAME=app"; "  # the image"; "IMAGE=img:v1"]) (mkState ∅ 0 tt [])
  = @getcontainerEnv Scenario.asciiStrings unit
      (inl ["STACK_NAME=app"; "IMAGE=img:v1"]) (mkState ∅ 0 tt []).
Proof.
  exact (@getcontainerEnv_comment Scenario.asciiStrings unit
           ["STACK_NAME=app"] ["IMAGE=img:v1"] "  # the image"
           (mkState ∅ 0 tt []) eq_refl).
Defined.

Lemma getcontainerEnv_blank_line_witness :
  ∃ l st' m entry,
    @getcontainerEnv Scenario.asciiStrings unit
      (inl ["STACK_NAME=app"; "   "; "IMAGE=img:v1"]) (mkState ∅ 0 tt [])
    = (Return (Some l), st')
    ∧ heap st' !! l = Some m
    ∧ m !! "" = Some entry
    ∧ key entry = "".
Proof.
  apply (@getcontainerEnv_blank_line Scenario.asciiStrings unit
           ["STACK_NAME=app"; "   "; "IMAGE=img:v1"] "   " (mkState ∅ 0 tt [])).
  - repeat constructor.
  - reflexivity.
Defined.

(** ** Node discovery and the failures of discovery *)

Lemma usableNodes_cons (avoidMasters : Z) (node : Node) (reported : list Node) :
  usableNodes avoidMasters (node :: reported)
  = (if decide (Role node = "manager") then
       if decide (avoidMasters = 0) then [Hostname node] else []
     else [Hostname node]) ++ usableNodes avoidMasters reported.
Proof.
  unfold usableNodes. rewrite filter_cons.
  destruct (decide (Role node = "manager")) as [Hr|Hr].
  - destruct (decide (avoidMasters = 0)) as [Hz|Hz].
    + rewrite decide_True; [done|by right].
    + rewrite decide_False; [done|]. by intros [?|?].
  - rewrite decide_True; [done|by left].
Qed.

(** The loop of [getNodeList] extends what it has collected by the usable
    nodes that remain. *)
Lemma selectNodes_loop (avoidMasters : Z) (reported : list Node) (nodes : list string) :
  fold_left
    (fun nodes node =>
       if decide (Role node = "manager") then
         if decide (avoidMasters = 0) then nodes ++ [Hostname node] else nodes
       else nodes ++ [Hostname node])
    reported nodes
  = nodes ++ usableNodes avoidMasters reported.
Proof.
  revert nodes. induction reported as [|node reported IH]; intros nodes.
  - simpl. by rewrite app_nil_r.
  - cbn [fold_left]. rewrite IH, usableNodes_cons.
    destruct (decide (Role node = "manager")).
    + destruct (decide (avoidMasters = 0)); [by rewrite <- app_assoc|done].
    + by rewrite <- app_assoc.
Qed.

Lemma selectNodes_usable (avoidMasters : Z) (reported : list Node) :
  selectNodes avoidMasters reported = usableNodes avoidMasters reported.
Proof. unfold selectNodes. by rewrite selectNodes_loop. Qed.

(** X8. When the platform answers, [getNodeList] returns the host names of
    the reported nodes in the reported order, leaving out the managers
    unless the threshold is [0]; every threshold other than [0], negative
    ones too, leaves them out. *)
Theorem getNodeList_spec {World} `{Docker World} (avoidMasters : Z)
    (st : state World) (w' : World) (reported : list Node) :
  NewClient (world st) = None →
  NodeList (world st) = (w', inl reported) →
  getNodeList avoidMasters st
  = (Return (usableNodes avoidMasters reported),
     mkState (heap st) (ticks st) w' (trace st))
  ∧ (avoidMasters = 0 → usableNodes avoidMasters reported = Hostname <$> reported)
  ∧ (avoidMasters ≠ 0 →
       usableNodes avoidMasters reported
       = Hostname <$> filter (fun node => Role node ≠ "manager") reported).
Proof.
  intros Hclient Hlist. split_and!.
  - unfold getNodeList, newClient, call, mbind, M_bind, mret, M_ret. simpl.
    rewrite Hclient. simpl. rewrite Hlist. simpl.
    by rewrite selectNodes_usable.
  - intros ->. unfold usableNodes. f_equal. clear Hlist.
    induction reported as [|node reported IH]; [done|].
    rewrite filter_cons, decide_True by (by right). by rewrite IH.
  - intros Hnz. unfold usableNodes. f_equal.
    apply list_filter_iff. intros node. split; [|by left].
    by intros [?|?].
Qed.

Lemma getNodeList_spec_witness :
  @getNodeList _ Scenario.scriptedDocker 1
    (Scenario.baseState
       (Scenario.mkScripted [] [mkNode "manager" "m1"; mkNode "worker" "w1"] []))
  = (Return ["w1"],
     Scenario.baseState
       (Scenario.mkScripted [] [mkNode "manager" "m1"; mkNode "worker" "w1"] []))
  ∧ @getNodeList _ Scenario.scriptedDocker 0
      (Scenario.baseState
         (Scenario.mkScripted [] [mkNode "manager" "m1"; mkNode "worker" "w1"] []))
    = (Return ["m1"; "w1"],
       Scenario.baseState
         (Scenario.mkScripted [] [mkNode "manager" "m1"; mkNode "worker" "w1"] [])).
Proof.
  split.
  - exact (proj1 (@getNodeList_spec _ Scenario.scriptedDocker 1 _ _ _
                    eq_refl eq_refl)).
  - exact (proj1 (@getNodeList_spec _ Scenario.scriptedDocker 0 _ _ _
                    eq_refl eq_refl)).
Defined.

(** X9. Discovery does not survive a failure of the platform: when the
    client cannot be built both listings panic with its error before the
    platform is asked anything, and when a listing fails the process exits
    with the platform's error; no service is created in either case. *)
Theorem discovery_failures {World} `{Docker World}
    (avoidNetworks : gmap string string) (avoidMasters : Z) (st : state World) :
  (∀ msg, NewClient (world st) = Some msg →
     getNetworkList avoidNetworks st = (Panic msg, st)
     ∧ getNodeList avoidMasters st = (Panic msg, st))
  ∧ (∀ w' msg, NewClient (world st) = None →
       NetworkList (world st) = (w', inr msg) →
       getNetworkList avoidNetworks st
       = (Fatal ("docker api returned an error: " +:+ msg +:+ LF),
          mkState (heap st) (ticks st) w' (trace st)))
  ∧ (∀ w' msg, NewClient (world st) = None →
       NodeList (world st) = (w', inr msg) →
       getNodeList avoidMasters st
       = (Fatal ("docker api returned an error: " +:+ msg +:+ LF),
          mkState (heap st) (ticks st) w' (trace st))).
Proof.
  split_and!.
  - intros msg Hclient.
    unfold getNetworkList, getNodeList, newClient, call, panic, mbind, M_bind.
    simpl. rewrite Hclient. by destruct st.
  - intros w' msg Hclient Hlist.
    unfold getNetworkList, newClient, call, fatal, mbind, M_bind, mret, M_ret.
    simpl. rewrite Hclient. simpl. by rewrite Hlist.
  - intros w' msg Hclient Hlist.
    unfold getNodeList, newClient, call, fatal, mbind, M_bind, mret, M_ret.
    simpl. rewrite Hclient. simpl. by rewrite Hlist.
Qed.

Lemma discovery_failures_witness :
  @getNetworkList unit Scenario.noClient ∅ (Scenario.baseState tt)
  = (Panic "cannot connect to the Docker daemon", Scenario.baseState tt)
  ∧ @getNodeList unit Scenario.noListing 1 (Scenario.baseState tt)
    = (Fatal ("docker api returned an error: " +:+ "permission denied" +:+ LF),
       Scenario.baseState tt).
Proof.
  split.
  - exact (proj1 (proj1 (@discovery_failures unit Scenario.noClient ∅ 1
                           (Scenario.baseState tt))
                    "cannot connect to the Docker daemon" eq_refl)).
  - exact (proj2 (proj2 (@discovery_failures unit Scenario.noListing ∅ 1
                           (Scenario.baseState tt)))
             tt "permission denied" eq_refl eq_refl).
Defined.

(** ** From the configuration to the networks *)

Lemma elem_of_eligibleNetworks (avoidNetworks : gmap string string)
    (reported : list NetworkResource) (name : string) :
  name ∈ eligibleNetworks avoidNetworks reported
  ↔ ∃ network,
      network ∈ reported ∧ Name network = name
      ∧ Driver network = "overlay" ∧ avoidNetworks !! name = None.
Proof.
  unfold eligibleNetworks. rewrite list_elem_of_fmap. split.
  - intros (network & -> & Hin). apply list_elem_of_filter in Hin as [[Hd Ha] Hin].
    by exists network.
  - intros (network & Hin & <- & Hd & Ha). exists network. split; [done|].
    by apply list_elem_of_filter.
Qed.

(** X10. With [AVOID_NETWORKS] absent or empty, discovery returns every
    reported overlay network except those named [ingress], and no other. *)
Theorem default_avoids_ingress `{Runtime} (containerEnv : envData)
    (reported : list NetworkResource) :
  value (index containerEnv "AVOID_NETWORKS") = "" →
  selectNetworks (AvoidNetworks (getConfig containerEnv).1) reported
  = Name <$> filter (fun network =>
                       Driver network = "overlay" ∧ Name network ≠ "ingress")
                    reported.
Proof.
  intros Hraw. rewrite selectNetworks_eligible, getConfig_AvoidNetworks.
  rewrite decide_False by (by intros ?).
  unfold eligibleNetworks. f_equal. apply list_filter_iff. intros network.
  destruct (decide (Name network = "ingress")) as [Hn|Hn].
  - rewrite Hn, lookup_singleton_eq. split; [by intros [_ [=]]|by intros [_ ?]].
  - rewrite lookup_singleton_ne by congruence.
    split; intros [Hd _]; by split.
Qed.

Lemma default_avoids_ingress_witness :
  selectNetworks
    (AvoidNetworks (@getConfig Scenario.plainRuntime Scenario.baseEnv).1)
    [mkNetwork "ingress" "overlay"; mkNetwork "net-a" "overlay";
     mkNetwork "bridge" "bridge"]
  = ["net-a"].
Proof.
  exact (@default_avoids_ingress Scenario.plainRuntime Scenario.baseEnv
           [mkNetwork "ingress" "overlay"; mkNetwork "net-a" "overlay";
            mkNetwork "bridge" "bridge"] eq_refl).
Defined.

(** X11. A value of [AVOID_NETWORKS] replaces the default instead of adding
    to it: when it does not list [ingress], an overlay network named
    [ingress] is returned by discovery like any other. *)
Theorem avoid_list_replaces_default `{Runtime} (containerEnv : envData)
    (reported : list NetworkResource) (network : NetworkResource) :
  value (index containerEnv "AVOID_NETWORKS") ≠ "" →
  "ingress" ∉ GoStrings.Split (value (index containerEnv "AVOID_NETWORKS")) "," →
  network ∈ reported →
  Name network = "ingress" →
  Driver network = "overlay" →
  "ingress" ∈ selectNetworks (AvoidNetworks (getConfig containerEnv).1) reported.
Proof.
  intros Hraw Hnot Hin Hname Hdriver.
  rewrite selectNetworks_eligible, getConfig_AvoidNetworks.
  rewrite decide_True by done.
  apply elem_of_eligibleNetworks. exists network. split_and!; try done.
  destruct (getSubStringsMap _ !! "ingress") as [v|] eqn:Hl; [|done].
  apply getSubStringsMap_lookup in Hl as [Hl _]. done.
Qed.

Lemma avoid_list_replaces_default_witness :
  "ingress"
  ∈ selectNetworks
      (AvoidNetworks
         (@getConfig Scenario.plainRuntime
            {["AVOID_NETWORKS" := mkKv "AVOID_NETWORKS" "net-b,net-c"]}).1)
      [mkNetwork "ingress" "overlay"; mkNetwork "net-b" "overlay"].
Proof.
  apply (@avoid_list_replaces_default Scenario.plainRuntime
           {["AVOID_NETWORKS" := mkKv "AVOID_NETWORKS" "net-b,net-c"]}
           [mkNetwork "ingress" "overlay"; mkNetwork "net-b" "overlay"]
           (mkNetwork "ingress" "overlay")).
  - discriminate.
  - intros Hin. repeat (apply elem_of_cons in Hin as [Hin|Hin]; [discriminate|]).
    by apply elem_of_nil in Hin.
  - repeat constructor.
  - reflexivity.
  - reflexivity.
Defined.

(** ** The transformation at its edges *)

Section TransformerEdges.
Context {World : Type}.

(** X12. A missing [STACK_NAME] is no error: the transformation then files
    an entry with the empty key under [STACK_NAME], with the value [_N],
    whose rendering is [=_N]; the service-spec name starts with [_N]. *)
Theorem setAndGetContainerEnv_missing_stack (cfg : envs) (N : string) (l : loc)
    (st : state World) (base : envData) :
  cfg !! N = Some (Some l) →
  heap st !! l = Some base →
  base !! "STACK_NAME" = None →
  ∃ st' m' entry,
    setAndGetContainerEnv cfg N st = (Return (Some l), st')
    ∧ heap st' !! l = Some m'
    ∧ m' !! "STACK_NAME" = Some entry
    ∧ entry = {| key := ""; value := "_" +:+ N |}
    ∧ rendering entry = "=_" +:+ N
    ∧ getServiceSpecName m' = ("_" +:+ N) +:+ "_" +:+ getServiceName base.
Proof.
  intros Hcfg Hl Hstack.
  eexists _, (transformed N base), {| key := ""; value := "_" +:+ N |}.
  split; [by apply setAndGetContainerEnv_run|].
  simpl. rewrite lookup_insert_eq, Hl. simpl.
  split; [done|]. split.
  { unfold transformed, index. rewrite Hstack. simpl.
    rewrite lookup_insert_ne by done. by rewrite lookup_insert_eq. }
  split; [done|]. split; [reflexivity|].
  unfold getServiceSpecName, getServiceName, transformed, index.
  rewrite lookup_insert_eq, Hstack. done.
Qed.

(** X13. For a network that is not bound, or bound to [nil], the
    transformation panics on its first write and so does the builder; the
    state is as it was and no specification is built. *)
Theorem transformation_of_unbound_network `{Runtime} (cfg : envs) (N : string)
    (replicas : Z) (st : state World) :
  cfg !! N = None ∨ cfg !! N = Some None →
  setAndGetContainerEnv cfg N st = (Panic "assignment to entry in nil map", st)
  ∧ getServiceDefinition replicas N cfg st
    = (Panic "assignment to entry in nil map", st).
Proof.
  intros Hcfg.
  assert (default None (cfg !! N) = None) as Hnil.
  { unfold env in *. destruct Hcfg as [Hc|Hc]; by rewrite Hc. }
  split; [by apply setAndGetContainerEnv_nil|].
  unfold getServiceDefinition. unfold mbind at 1, M_bind at 1.
  by rewrite (setAndGetContainerEnv_nil cfg N st Hnil).
Qed.

(** X14. The transformation is not idempotent: run twice for the same
    network it appends the network twice, to the stack name and inside the
    service-spec name. *)
Theorem transformation_twice (cfg : envs) (N : string) (l : loc)
    (st : state World) (base : envData) :
  cfg !! N = Some (Some l) →
  heap st !! l = Some base →
  ∃ st1 st2,
    setAndGetContainerEnv cfg N st = (Return (Some l), st1)
    ∧ setAndGetContainerEnv cfg N st1 = (Return (Some l), st2)
    ∧ getStackName (deref (heap st1) (Some l)) = getStackName base +:+ "_" +:+ N
    ∧ getStackName (deref (heap st2) (Some l))
      = (getStackName base +:+ "_" +:+ N) +:+ "_" +:+ N
    ∧ getServiceSpecName (deref (heap st2) (Some l))
      = ((getStackName base +:+ "_" +:+ N) +:+ "_" +:+ N)
          +:+ "_" +:+ getServiceName base
    ∧ getStackName (deref (heap st2) (Some l))
      ≠ getStackName (deref (heap st1) (Some l)).
Proof.
  intros Hcfg Hl.
  eexists _, _. split; [by apply setAndGetContainerEnv_run|].
  split; [by apply setAndGetContainerEnv_run|].
  simpl. rewrite !lookup_insert_eq, Hl. simpl.
  assert (∀ M m, getStackName (transformed M m) = getStackName m +:+ "_" +:+ M)
    as Hstack.
  { intros M m. unfold getStackName, transformed, index at 1.
    rewrite lookup_insert_ne by done. by rewrite lookup_insert_eq. }
  assert (∀ M m, getServiceName (transformed M m) = getServiceName m) as Hservice.
  { intros M m. unfold getServiceName, transformed, index at 1.
    by rewrite !lookup_insert_ne. }
  assert (∀ M m, getServiceSpecName (transformed M m)
                 = (getStackName m +:+ "_" +:+ M) +:+ "_" +:+ getServiceName m)
    as Hspec.
  { intros M m. unfold getServiceSpecName, transformed, index at 1.
    by rewrite lookup_insert_eq. }
  rewrite Hspec, !Hstack, Hservice. split_and!; try done.
  intros Heq. apply (f_equal String.length) in Heq.
  rewrite !append_length in Heq. simpl in Heq. lia.
Qed.

(** X15. The transformation writes to the one map object its network is
    bound to: every other object, the platform, the tick and the trace are
    as they were, and no object is made or lost. *)
Theorem transformation_frame (cfg : envs) (N : string) (l : loc)
    (st : state World) (base : envData) :
  cfg !! N = Some (Some l) →
  heap st !! l = Some base →
  ∃ st',
    setAndGetContainerEnv cfg N st = (Return (Some l), st')
    ∧ (∀ l', l' ≠ l → heap st' !! l' = heap st !! l')
    ∧ dom (heap st') = dom (heap st)
    ∧ ticks st' = ticks st ∧ world st' = world st ∧ trace st' = trace st.
Proof.
  intros Hcfg Hl.
  eexists. split; [by apply setAndGetContainerEnv_run|]. simpl.
  split_and!; try done.
  - intros l' Hne. by rewrite lookup_insert_ne.
  - rewrite dom_insert_L. apply subseteq_union_1_L, singleton_subseteq_l.
    by apply elem_of_dom_2 in Hl.
Qed.

(** X16. Transformations for networks bound to different map objects do
    not interfere: in either order they leave the same state. *)
Theorem transformations_commute (cfg : envs) (N1 N2 : string) (l1 l2 : loc)
    (st : state World) :
  l1 ≠ l2 →
  cfg !! N1 = Some (Some l1) →
  cfg !! N2 = Some (Some l2) →
  ((setAndGetContainerEnv cfg N1 ;; setAndGetContainerEnv cfg N2) st).2
  = ((setAndGetContainerEnv cfg N2 ;; setAndGetContainerEnv cfg N1) st).2.
Proof.
  intros Hne Hc1 Hc2. unfold mbind, M_bind.
  rewrite (setAndGetContainerEnv_run cfg N1 l1 st Hc1).
  rewrite (setAndGetContainerEnv_run cfg N2 l2 _ Hc2).
  rewrite (setAndGetContainerEnv_run cfg N2 l2 st Hc2).
  rewrite (setAndGetContainerEnv_run cfg N1 l1 _ Hc1).
  simpl. rewrite (lookup_insert_ne _ l1 l2) by done.
  rewrite (lookup_insert_ne _ l2 l1) by done.
  f_equal. by apply insert_insert_ne.
Qed.

End TransformerEdges.

Lemma setAndGetContainerEnv_missing_stack_witness :
  ∃ st' m' entry,
    setAndGetContainerEnv {["net-a" := Some 1%positive]} "net-a"
      (mkState {[1%positive := {["SERVICE_NAME" := mkKv "SERVICE_NAME" "svc"]}]}
               0 tt [])
    = (Return (Some 1%positive), st')
    ∧ heap st' !! 1%positive = Some m'
    ∧ m' !! "STACK_NAME" = Some entry
    ∧ entry = {| key := ""; value := "_net-a" |}
    ∧ rendering entry = "=_net-a"
    ∧ getServiceSpecName m' = "_net-a_svc".
Proof.
  exact (setAndGetContainerEnv_missing_stack
           {["net-a" := Some 1%positive]} "net-a" 1%positive
           (mkState {[1%positive := {["SERVICE_NAME" := mkKv "SERVICE_NAME" "svc"]}]}
                    0 tt [])
           {["SERVICE_NAME" := mkKv "SERVICE_NAME" "svc"]}
           eq_refl eq_refl eq_refl).
Defined.

Lemma transformation_of_unbound_network_witness :
  setAndGetContainerEnv {["net-a" := Some 1%positive]} "net-b"
    (Scenario.baseState tt)
  = (Panic "assignment to entry in nil map", Scenario.baseState tt)
  ∧ @getServiceDefinition Scenario.plainRuntime unit 3 "net-b"
      {["net-a" := Some 1%positive]} (Scenario.baseState tt)
    = (Panic "assignment to entry in nil map", Scenario.baseState tt).
Proof.
  exact (@transformation_of_unbound_network unit Scenario.plainRuntime
           {["net-a" := Some 1%positive]} "net-b" 3 (Scenario.baseState tt)
           (or_introl eq_refl)).
Defined.

Lemma transformation_twice_witness :
  ∃ st1 st2,
    setAndGetContainerEnv {["net-a" := Some 1%positive]} "net-a"
      (Scenario.baseState tt) = (Return (Some 1%positive), st1)
    ∧ setAndGetContainerEnv {["net-a" := Some 1%positive]} "net-a" st1
      = (Return (Some 1%positive), st2)
    ∧ getStackName (deref (heap st1) (Some 1%positive)) = "app_net-a"
    ∧ getStackName (deref (heap st2) (Some 1%positive)) = "app_net-a_net-a"
    ∧ getServiceSpecName (deref (heap st2) (Some 1%positive))
      = "app_net-a_net-a_svc"
    ∧ getStackName (deref (heap st2) (Some 1%positive))
      ≠ getStackName (deref (heap st1) (Some 1%positive)).
Proof.
  exact (transformation_twice {["net-a" := Some 1%positive]} "net-a" 1%positive
           (Scenario.baseState tt) Scenario.baseEnv eq_refl eq_refl).
Defined.

Lemma transformation_frame_witness :
  ∃ st',
    setAndGetContainerEnv
      {["net-a" := Some 1%positive; "net-b" := Some 2%positive]} "net-a"
      (mkState {[1%positive := Scenario.baseEnv; 2%positive := Scenario.baseEnv]}
               0 tt [])
    = (Return (Some 1%positive), st')
    ∧ (∀ l', l' ≠ 1%positive →
         heap st' !! l'
         = ({[1%positive := Scenario.baseEnv; 2%positive := Scenario.baseEnv]}
              : gmap loc envData) !! l')
    ∧ dom (heap st') = dom ({[1%positive := Scenario.baseEnv;
                              2%positive := Scenario.baseEnv]} : gmap loc envData)
    ∧ ticks st' = 0%nat ∧ world st' = tt ∧ trace st' = [].
Proof.
  exact (transformation_frame
           {["net-a" := Some 1%positive; "net-b" := Some 2%positive]} "net-a"
           1%positive
           (mkState {[1%positive := Scenario.baseEnv; 2%positive := Scenario.baseEnv]}
                    0 tt [])
           Scenario.baseEnv eq_refl eq_refl).
Defined.

Lemma transformations_commute_witness :
  ((setAndGetContainerEnv
      {["net-a" := Some 1%positive; "net-b" := Some 2%positive]} "net-a" ;;
    setAndGetContainerEnv
      {["net-a" := Some 1%positive; "net-b" := Some 2%positive]} "net-b")
     (mkState {[1%positive := Scenario.baseEnv; 2%positive := Scenario.baseEnv]}
              0 tt [])).2
  = ((setAndGetContainerEnv
        {["net-a" := Some 1%positive; "net-b" := Some 2%positive]} "net-b" ;;
      setAndGetContainerEnv
        {["net-a" := Some 1%positive; "net-b" := Some 2%positive]} "net-a")
       (mkState {[1%positive := Scenario.baseEnv; 2%positive := Scenario.baseEnv]}
                0 tt [])).2.
Proof.
  refine (transformations_commute
            {["net-a" := Some 1%positive; "net-b" := Some 2%positive]}
            "net-a" "net-b" 1%positive 2%positive
            (mkState {[1%positive := Scenario.baseEnv; 2%positive := Scenario.baseEnv]}
                     0 tt [])
            _ eq_refl eq_refl).
  discriminate.
Defined.

(** ** The serialised environment *)

Lemma getKeyValue_join (k v : string) :
  GoStrings.Count k "=" = 0%nat →
  GoStrings.Count v "=" = 0%nat →
  getKeyValue (k +:+ "=" +:+ v) = (k, v).
Proof.
  intros Hk Hv. unfold getKeyValue.
  change ("=" +:+ v) with (String "=" v).
  rewrite (Split_app_sep _ _ "=" Hk), (Split_no_sep _ _ Hv).
  by rewrite decide_False by (simpl; lia).
Qed.

Lemma loadInto_shape `{Strings} (lines : list string) (k : string) (entry : kv) :
  loadInto ∅ lines !! k = Some entry →
  key entry = k
  ∧ GoStrings.Count k "=" = 0%nat
  ∧ GoStrings.Count (value entry) "=" = 0%nat.
Proof.
  rewrite loadInto_lookup, lookup_empty.
  destruct (last _) as [text|] eqn:Hlast; [|done].
  apply last_Some_elem_of, list_elem_of_filter in Hlast as [Hkey _].
  destruct (lineEntry text) as [[k' entry']|] eqn:Hentry; [|done].
  simpl in Hkey. injection Hkey as ->. simpl. intros [= ->].
  by apply (lineEntry_shape text).
Qed.

(** X17. [getContainerEnv] renders every entry of the environment once as
    [KEY=VALUE], in the order the map is visited in; it changes no map
    object, and a [nil] environment gives no line. *)
Theorem getContainerEnv_spec `{Runtime} {World} (e : env) (st : state World) :
  ∃ out,
    getContainerEnv e st
    = (Return out, mkState (heap st) (S (ticks st)) (world st) (trace st))
    ∧ out ≡ₚ rendering <$> (snd <$> map_to_list (deref (heap st) e))
    ∧ length out = size (deref (heap st) e)
    ∧ (e = None → out = []).
Proof.
  eexists. split; [reflexivity|].
  assert (map (fun entry => key (snd entry) +:+ "=" +:+ value (snd entry))
              (rangeOrder (ticks st) (deref (heap st) e))
          ≡ₚ rendering <$> (snd <$> map_to_list (deref (heap st) e))) as Hperm.
  { rewrite <- list_fmap_compose. apply fmap_Permutation, rangeOrder_perm. }
  split; [done|]. split.
  - rewrite Hperm, !length_fmap. apply length_map_to_list.
  - intros ->. apply Permutation_nil_r. rewrite Hperm. simpl.
    by rewrite map_to_list_empty.
Qed.

(** X18. What the loader read is what the parser reads back: every line of
    the serialisation of a loaded environment is parsed by [getKeyValue]
    into the key and the value of an entry of that environment. *)
Theorem loaded_environment_round_trip `{Strings} `{Runtime} {World}
    (lines : list string) (st : state World) :
  ∃ e st1 out st2,
    getcontainerEnv (inl lines) st = (Return e, st1)
    ∧ getContainerEnv e st1 = (Return out, st2)
    ∧ ∀ line,
        line ∈ out →
        ∃ k entry,
          deref (heap st1) e !! k = Some entry
          ∧ line = rendering entry
          ∧ getKeyValue line = (k, value entry).
Proof.
  eexists _, _, _, _. split; [apply getcontainerEnv_run|].
  split; [reflexivity|].
  intros line Hin. simpl in Hin. rewrite lookup_insert_eq in Hin. simpl in Hin.
  apply list_elem_of_fmap in Hin as ([k entry] & -> & Hin).
  rewrite rangeOrder_perm in Hin. apply elem_of_map_to_list in Hin.
  exists k, entry. simpl. rewrite lookup_insert_eq. simpl.
  split; [done|]. split; [done|].
  destruct (loadInto_shape _ _ _ Hin) as (Hkey & Hk & Hv).
  rewrite Hkey. by apply getKeyValue_join.
Qed.

(** ** The worklist *)

Lemma transformed_getStackName (network : string) (m : envData) :
  getStackName (transformed network m) = getStackName m +:+ "_" +:+ network.
Proof.
  unfold getStackName, transformed, index at 1.
  rewrite lookup_insert_ne by done. by rewrite lookup_insert_eq.
Qed.

Lemma transformed_getServiceName (network : string) (m : envData) :
  getServiceName (transformed network m) = getServiceName m.
Proof.
  unfold getServiceName, transformed, index at 1. by rewrite !lookup_insert_ne.
Qed.

Lemma transformed_getImage (network : string) (m : envData) :
  getImage (transformed network m) = getImage m.
Proof.
  unfold getImage, transformed, index at 1. by rewrite !lookup_insert_ne.
Qed.

Lemma transformed_getServiceSpecName (network : string) (m : envData) :
  getServiceSpecName (transformed network m)
  = (getStackName m +:+ "_" +:+ network) +:+ "_" +:+ getServiceName m.
Proof.
  unfold getServiceSpecName, transformed, index at 1. by rewrite lookup_insert_eq.
Qed.

(** The loop that builds the worklist, when every network is bound to the
    one map object [l]. *)
Lemma buildWorklist_run `{Runtime} {World} (networks nodes : list string)
    (cfg : envs) (l : loc) (m : envData) (worklist : list ServiceSpec)
    (st : state World) :
  (∀ network, network ∈ networks → cfg !! network = Some (Some l)) →
  heap st !! l = Some m →
  buildWorklist networks nodes cfg worklist st
  = (Return (worklist
             ++ planned (uint64 (Z.of_nat (length nodes))) (ticks st) m networks),
     mkState (<[l := fold_left (fun m network => transformed network m) networks m]>
                (heap st))
             (ticks st + length networks)%nat (world st) (trace st)).
Proof.
  revert m worklist st.
  induction networks as [|network networks IH]; intros m worklist st Hcfg Hm.
  - simpl. unfold mret, M_ret. rewrite app_nil_r, Nat.add_0_r.
    rewrite insert_id by done. by destruct st.
  - cbn [buildWorklist]. unfold mbind, M_bind.
    rewrite (getServiceDefinition_run _ network cfg l st)
      by (apply Hcfg; by left).
    simpl. rewrite Hm. simpl.
    erewrite IH;
      [|intros n Hn; apply Hcfg; by right|simpl; apply lookup_insert_eq].
    simpl. rewrite insert_insert_eq, <- app_assoc. simpl.
    do 3 f_equal. lia.
Qed.

Lemma planned_length `{Runtime} (replicas : Z) (tick : nat) (m : envData)
    (networks : list string) :
  length (planned replicas tick m networks) = length networks.
Proof.
  revert tick m. induction networks as [|n networks IH]; intros tick m; [done|].
  simpl. by rewrite IH.
Qed.

Lemma planned_names `{Runtime} (replicas : Z) (tick : nat) (m : envData)
    (networks : list string) :
  SpecName <$> planned replicas tick m networks
  = plannedNames (getStackName m) (getServiceName m) networks.
Proof.
  revert tick m. induction networks as [|n networks IH]; intros tick m; [done|].
  cbn [planned plannedNames fmap list_fmap]. f_equal.
  - apply transformed_getServiceSpecName.
  - change (SpecName <$> planned replicas (S tick) (transformed n m) networks
            = plannedNames (getStackName m +:+ "_" +:+ n) (getServiceName m) networks).
    by rewrite IH, transformed_getStackName, transformed_getServiceName.
Qed.

(** Every planned name is longer than the stack name and the service name
    together by two or more. *)
Lemma plannedNames_length (stack service : string) (networks : list string)
    (name : string) :
  name ∈ plannedNames stack service networks →
  (String.length stack + String.length service + 2 ≤ String.length name)%nat.
Proof.
  revert stack. induction networks as [|n networks IH]; intros stack Hin.
  - by apply elem_of_nil in Hin.
  - cbn [plannedNames] in Hin. apply elem_of_cons in Hin as [->|Hin].
    + rewrite !append_length. simpl. lia.
    + apply IH in Hin. rewrite !append_length in Hin. simpl in Hin. lia.
Qed.

Lemma plannedNames_NoDup (stack service : string) (networks : list string) :
  NoDup (plannedNames stack service networks).
Proof.
  revert stack. induction networks as [|n networks IH]; intros stack.
  - constructor.
  - cbn [plannedNames]. constructor; [|apply IH].
    intros Hin. apply plannedNames_length in Hin.
    rewrite !append_length in Hin. simpl in Hin. lia.
Qed.

Lemma planned_attachments `{Runtime} (replicas : Z) (tick : nat) (m : envData)
    (networks : list string) :
  (fun spec => Networks (TaskTemplate spec)) <$> planned replicas tick m networks
  = (fun network => [{| Target := network; Aliases := [getServiceName m] |}])
      <$> networks.
Proof.
  revert tick m. induction networks as [|n networks IH]; intros tick m; [done|].
  cbn [planned fmap list_fmap]. f_equal.
  - simpl. by rewrite transformed_getServiceName.
  - change ((fun spec => Networks (TaskTemplate spec))
              <$> planned replicas (S tick) (transformed n m) networks
            = (fun network => [{| Target := network; Aliases := [getServiceName m] |}])
                <$> networks).
    by rewrite IH, transformed_getServiceName.
Qed.

Lemma planned_constant_parts `{Runtime} (replicas : Z) (tick : nat) (m : envData)
    (networks : list string) :
  Forall (fun spec =>
            Replicas spec = replicas
            ∧ Image (Container (TaskTemplate spec)) = getImage m
            ∧ Command (Container (TaskTemplate spec)) = ["/go/bin/pinger"]
            ∧ Labels spec !! "com.docker.stack.image" = Some (getImage m))
         (planned replicas tick m networks).
Proof.
  revert tick m. induction networks as [|n networks IH]; intros tick m.
  - constructor.
  - cbn [planned]. constructor.
    + simpl. rewrite transformed_getImage.
      split_and!; first [done | apply lookup_insert_eq].
    + specialize (IH (S tick) (transformed n m)).
      by rewrite transformed_getImage in IH.
Qed.

Lemma compounded_transformed (networks : list string) (m : envData) :
  getStackName (fold_left (fun m network => transformed network m) networks m)
  = compounded (getStackName m) networks.
Proof.
  revert m. induction networks as [|n networks IH]; intros m; [done|].
  cbn [fold_left]. rewrite IH, transformed_getStackName. done.
Qed.

(** X19. However many networks share the environment, the worklist has one
    specification per discovered network, in discovery order, each attached
    to its network under the alias [SERVICE_NAME], with the image of the
    base environment, the fixed command and the node count as replicas. *)
Theorem worklist_shape `{Runtime} {World} (networks nodes : list string)
    (l : loc) (base : envData) (st : state World) :
  heap st !! l = Some base →
  ∃ worklist st',
    buildWorklist networks nodes (makeConfigs (Some l) networks) [] st
    = (Return worklist, st')
    ∧ length worklist = length networks
    ∧ (fun spec => Networks (TaskTemplate spec)) <$> worklist
      = (fun network => [{| Target := network; Aliases := [getServiceName base] |}])
          <$> networks
    ∧ Forall (fun spec =>
                Replicas spec = uint64 (Z.of_nat (length nodes))
                ∧ Image (Container (TaskTemplate spec)) = getImage base
                ∧ Command (Container (TaskTemplate spec)) = ["/go/bin/pinger"]
                ∧ Labels spec !! "com.docker.stack.image" = Some (getImage base))
             worklist
    ∧ (Z.of_nat (length nodes) < 2 ^ 64 →
       uint64 (Z.of_nat (length nodes)) = Z.of_nat (length nodes)).
Proof.
  intros Hbase. eexists _, _. split.
  { apply buildWorklist_run; [|done]. intros n Hn. by apply makeConfigs_lookup. }
  cbn [app]. split_and!.
  - apply planned_length.
  - apply planned_attachments.
  - apply planned_constant_parts.
  - intros Hlt. unfold uint64. apply Z.mod_small. lia.
Qed.

Lemma worklist_shape_witness :
  ∃ worklist st',
    @buildWorklist Scenario.plainRuntime unit ["net-a"; "net-b"] ["w1"; "w2"; "w3"]
      (makeConfigs (Some 1%positive) ["net-a"; "net-b"]) [] (Scenario.baseState tt)
    = (Return worklist, st')
    ∧ length worklist = 2%nat
    ∧ (fun spec => Networks (TaskTemplate spec)) <$> worklist
      = [[{| Target := "net-a"; Aliases := ["svc"] |}];
         [{| Target := "net-b"; Aliases := ["svc"] |}]]
    ∧ Forall (fun spec =>
                Replicas spec = 3
                ∧ Image (Container (TaskTemplate spec)) = "img:v1"
                ∧ Command (Container (TaskTemplate spec)) = ["/go/bin/pinger"]
                ∧ Labels spec !! "com.docker.stack.image" = Some "img:v1")
             worklist
    ∧ (3 < 2 ^ 64 → uint64 3 = 3).
Proof.
  exact (@worklist_shape Scenario.plainRuntime unit ["net-a"; "net-b"]
           ["w1"; "w2"; "w3"] 1%positive Scenario.baseEnv (Scenario.baseState tt)
           eq_refl).
Defined.

(** X20. Since the networks share the one loaded environment, every
    transformation starts from the stack name the ones before it left: the
    [i]-th service is named [S_N1_..._Ni_V].  These names are pairwise
    different, also when a network name occurs twice, and the environment
    ends with the stack name [S_N1_..._Nn]. *)
Theorem worklist_names `{Runtime} {World} (networks nodes : list string)
    (l : loc) (base : envData) (st : state World) :
  heap st !! l = Some base →
  ∃ worklist st',
    buildWorklist networks nodes (makeConfigs (Some l) networks) [] st
    = (Return worklist, st')
    ∧ SpecName <$> worklist
      = plannedNames (getStackName base) (getServiceName base) networks
    ∧ NoDup (SpecName <$> worklist)
    ∧ getStackName (deref (heap st') (Some l))
      = compounded (getStackName base) networks.
Proof.
  intros Hbase. eexists _, _. split.
  { apply buildWorklist_run; [|done]. intros n Hn. by apply makeConfigs_lookup. }
  cbn [app]. rewrite planned_names. split_and!.
  - done.
  - apply plannedNames_NoDup.
  - simpl. rewrite lookup_insert_eq. simpl. apply compounded_transformed.
Qed.

Lemma worklist_names_witness :
  ∃ worklist st',
    @buildWorklist Scenario.plainRuntime unit ["net-a"; "net-a"] ["w1"]
      (makeConfigs (Some 1%positive) ["net-a"; "net-a"]) [] (Scenario.baseState tt)
    = (Return worklist, st')
    ∧ SpecName <$> worklist = ["app_net-a_svc"; "app_net-a_net-a_svc"]
    ∧ NoDup (SpecName <$> worklist)
    ∧ getStackName (deref (heap st') (Some 1%positive)) = "app_net-a_net-a".
Proof.
  exact (@worklist_names Scenario.plainRuntime unit ["net-a"; "net-a"] ["w1"]
           1%positive Scenario.baseEnv (Scenario.baseState tt) eq_refl).
Defined.

(** ** The pipeline as a whole *)

Section Pipeline.
Context `{Runtime} {World : Type} `{Docker World}.


(** The deployer exits or returns; it does not panic. *)
Lemma deploy_no_panic (worklist : list ServiceSpec) (st : state World) (msg : string) :
  (deploy worklist st).1 ≠ Panic msg.
Proof.
  revert st. induction worklist as [|work worklist IH]; intros st; [done|].
  destruct (ServiceCreate (world st) work) as [w' [err|]] eqn:Hcall.
  - by rewrite (deploy_cons_fail _ _ _ _ _ Hcall).
  - rewrite (deploy_cons_ok _ _ _ _ Hcall). apply IH.
Qed.

(** [main] up to the deployment, when the configuration is accepted and
    discovery finds networks and nodes. *)
Lemma main_run (l : loc) (base : envData) (c : config) (st : state World)
    (w1 w2 : World) (reportedNetworks : list NetworkResource)
    (reportedNodes : list Node) :
  (∀ w, NewClient w = None) →
  heap st !! l = Some base →
  getConfig base = (c, None) →
  NetworkList (world st) = (w1, inl reportedNetworks) →
  eligibleNetworks (AvoidNetworks c) reportedNetworks ≠ [] →
  NodeList w1 = (w2, inl reportedNodes) →
  usableNodes (AvoidMasters c) reportedNodes ≠ [] →
  main (Some l) st
  = deploy
      (planned (uint64 (Z.of_nat (length (usableNodes (AvoidMasters c) reportedNodes))))
         (ticks st) base (eligibleNetworks (AvoidNetworks c) reportedNetworks))
      (mkState
         (<[l := fold_left (fun m network => transformed network m)
                   (eligibleNetworks (AvoidNetworks c) reportedNetworks) base]>
            (heap st))
         (ticks st + length (eligibleNetworks (AvoidNetworks c) reportedNetworks))%nat
         w2 (trace st)).
Proof.
  intros Hclient Hbase Hconfig Hnets Hsome Hnodes Husable.
  unfold main, load, mbind at 1, M_bind at 1. simpl. rewrite Hbase. simpl.
  rewrite Hconfig.
  unfold getNetworkList, getNodeList, newClient, call, fatal, mbind, M_bind,
    mret, M_ret. simpl.
  rewrite Hclient. simpl. rewrite Hnets. simpl.
  rewrite selectNetworks_eligible.
  destruct (decide (length (eligibleNetworks (AvoidNetworks c) reportedNetworks)
                    = 0%nat)) as [Hz|_].
  { by apply nil_length_inv in Hz. }
  simpl. rewrite Hclient. simpl. rewrite Hnodes. simpl.
  rewrite selectNodes_usable.
  destruct (decide (length (usableNodes (AvoidMasters c) reportedNodes) = 0%nat))
    as [Hz|_].
  { by apply nil_length_inv in Hz. }
  simpl. rewrite Hclient. simpl.
  rewrite (buildWorklist_run _ _ _ l base);
    [|intros n Hn; by apply makeConfigs_lookup|done].
  done.
Qed.

End Pipeline.

Section PipelineProperties.
Context `{Runtime} {World : Type} `{Docker World}.

(** X21. A value of [AVOID_MASTERS] that is not empty and not a valid
    integer stops the run before the platform is contacted: the process
    exits, the state is as it was, and the message speaks of
    [AVOID_INGRESS]. *)
Theorem main_rejects_bad_threshold (e : env) (st : state World) :
  value (index (deref (heap st) e) "AVOID_MASTERS") ≠ "" →
  (¬ ∃ n, validInteger (value (index (deref (heap st) e) "AVOID_MASTERS")) n) →
  main e st
  = (Fatal ("startup failed due to a config error: "
            +:+ "invalid value passed for AVOID_INGRESS: "
            +:+ atoiErrorText (value (index (deref (heap st) e) "AVOID_MASTERS"))),
     st).
Proof.
  intros Hraw Hbad. apply Atoi_rejects in Hbad.
  pose proof (getConfig_error (deref (heap st) e)) as Herr.
  rewrite decide_True in Herr by done. rewrite Hbad in Herr.
  unfold main, load, fatal, mbind at 1, M_bind at 1. simpl.
  destruct (getConfig (deref (heap st) e)) as [c err]. simpl in Herr.
  by rewrite Herr.
Qed.

(** X22. When no reported network is eligible the process exits with
    [no overlay networks found]: the nodes are not listed, no environment
    is transformed and no service is created. *)
Theorem main_no_networks (l : loc) (base : envData) (c : config)
    (st : state World) (w1 : World) (reportedNetworks : list NetworkResource) :
  heap st !! l = Some base →
  getConfig base = (c, None) →
  NewClient (world st) = None →
  NetworkList (world st) = (w1, inl reportedNetworks) →
  eligibleNetworks (AvoidNetworks c) reportedNetworks = [] →
  main (Some l) st
  = (Fatal ("no overlay networks found" +:+ LF),
     mkState (heap st) (ticks st) w1 (trace st)).
Proof.
  intros Hbase Hconfig Hclient Hnets Hnone.
  unfold main, load, mbind at 1, M_bind at 1. simpl. rewrite Hbase. simpl.
  rewrite Hconfig.
  unfold getNetworkList, newClient, call, fatal, mbind, M_bind, mret, M_ret.
  simpl. rewrite Hclient. simpl. rewrite Hnets. simpl.
  by rewrite selectNetworks_eligible, Hnone.
Qed.

(** X23. When networks are found but no node is usable the process exits
    with [no useable nodes found]: no environment is transformed and no
    service is created. *)
Theorem main_no_nodes (l : loc) (base : envData) (c : config)
    (st : state World) (w1 w2 : World) (reportedNetworks : list NetworkResource)
    (reportedNodes : list Node) :
  heap st !! l = Some base →
  getConfig base = (c, None) →
  NewClient (world st) = None →
  NetworkList (world st) = (w1, inl reportedNetworks) →
  eligibleNetworks (AvoidNetworks c) reportedNetworks ≠ [] →
  NewClient w1 = None →
  NodeList w1 = (w2, inl reportedNodes) →
  usableNodes (AvoidMasters c) reportedNodes = [] →
  main (Some l) st
  = (Fatal ("no useable nodes found" +:+ LF),
     mkState (heap st) (ticks st) w2 (trace st)).
Proof.
  intros Hbase Hconfig Hclient Hnets Hsome Hclient1 Hnodes Hnone.
  unfold main, load, mbind at 1, M_bind at 1. simpl. rewrite Hbase. simpl.
  rewrite Hconfig.
  unfold getNetworkList, getNodeList, newClient, call, fatal, mbind, M_bind,
    mret, M_ret. simpl.
  rewrite Hclient. simpl. rewrite Hnets. simpl.
  rewrite selectNetworks_eligible.
  destruct (decide (length (eligibleNetworks (AvoidNetworks c) reportedNetworks)
                    = 0%nat)) as [Hz|_].
  { by apply nil_length_inv in Hz. }
  simpl. rewrite Hclient1. simpl. rewrite Hnodes. simpl.
  by rewrite selectNodes_usable, Hnone.
Qed.


(** X25. As long as the client can be built the program does not panic,
    whatever the file holds and whatever the platform answers: the
    environment it transforms is the map object the loader made, so the
    write to a [nil] map cannot happen. *)
Theorem mainWithFile_no_panic `{Strings} (file : list string + string)
    (st : state World) (msg : string) :
  (∀ w, NewClient w = None) →
  (mainWithFile file st).1 ≠ Panic msg.
Proof.
  intros Hclient. unfold mainWithFile, mbind at 1, M_bind at 1.
  destruct file as [lines|err]; [|done].
  rewrite getcontainerEnv_run.
  set (l := fresh (dom (heap st))).
  set (st1 := mkState (<[l := loadInto ∅ lines]> (heap st)) (ticks st)
                      (world st) (trace st)).
  assert (heap st1 !! l = Some (loadInto ∅ lines)) as Hbase
    by apply lookup_insert_eq.
  destruct (getConfig (loadInto ∅ lines)) as [c [err|]] eqn:Hconfig.
  { unfold main, load, fatal, mbind at 1, M_bind at 1. simpl.
    rewrite lookup_insert_eq. simpl. by rewrite Hconfig. }
  destruct (NetworkList (world st1)) as [w1 [reportedNetworks|err]] eqn:Hnets.
  2: { unfold main, load, mbind at 1, M_bind at 1. simpl.
       rewrite lookup_insert_eq. simpl. rewrite Hconfig.
       unfold getNetworkList, newClient, call, fatal, mbind, M_bind, mret, M_ret.
       simpl. rewrite Hclient. simpl. simpl in Hnets. by rewrite Hnets. }
  destruct (decide (eligibleNetworks (AvoidNetworks c) reportedNetworks = []))
    as [Hnone|Hsome].
  { unfold main, load, mbind at 1, M_bind at 1. simpl.
    rewrite lookup_insert_eq. simpl. rewrite Hconfig.
    unfold getNetworkList, newClient, call, fatal, mbind, M_bind, mret, M_ret.
    simpl. rewrite Hclient. simpl. simpl in Hnets. rewrite Hnets. simpl.
    by rewrite selectNetworks_eligible, Hnone. }
  destruct (NodeList w1) as [w2 [reportedNodes|err]] eqn:Hnodes.
  2: { unfold main, load, mbind at 1, M_bind at 1. simpl.
       rewrite lookup_insert_eq. simpl. rewrite Hconfig.
       unfold getNetworkList, getNodeList, newClient, call, fatal, mbind, M_bind,
         mret, M_ret.
       simpl. rewrite Hclient. simpl. simpl in Hnets. rewrite Hnets. simpl.
       rewrite selectNetworks_eligible.
       destruct (decide (length (eligibleNetworks (AvoidNetworks c)
                                   reportedNetworks) = 0%nat)) as [Hz|_].
       { by apply nil_length_inv in Hz. }
       simpl. rewrite Hclient. simpl. by rewrite Hnodes. }
  destruct (decide (usableNodes (AvoidMasters c) reportedNodes = []))
    as [Hnone|Husable].
  { unfold main, load, mbind at 1, M_bind at 1. simpl.
    rewrite lookup_insert_eq. simpl. rewrite Hconfig.
    unfold getNetworkList, getNodeList, newClient, call, fatal, mbind, M_bind,
      mret, M_ret.
    simpl. rewrite Hclient. simpl. simpl in Hnets. rewrite Hnets. simpl.
    rewrite selectNetworks_eligible.
    destruct (decide (length (eligibleNetworks (AvoidNetworks c)
                                reportedNetworks) = 0%nat)) as [Hz|_].
    { by apply nil_length_inv in Hz. }
    simpl. rewrite Hclient. simpl. rewrite Hnodes. simpl.
    by rewrite selectNodes_usable, Hnone. }
  rewrite (main_run l (loadInto ∅ lines) c st1 w1 w2 reportedNetworks reportedNodes)
    by done.
  apply deploy_no_panic.
Qed.

End PipelineProperties.

Lemma main_rejects_bad_threshold_witness :
  @main Scenario.plainRuntime _ Scenario.scriptedDocker (Some 1%positive)
    (mkState {[1%positive := {["AVOID_MASTERS" := mkKv "AVOID_MASTERS" "bad"]}]}
             0 Scenario.cluster [])
  = (Fatal ("startup failed due to a config error: "
            +:+ "invalid value passed for AVOID_INGRESS: "
            +:+ @atoiErrorText Scenario.plainRuntime "bad"),
     mkState {[1%positive := {["AVOID_MASTERS" := mkKv "AVOID_MASTERS" "bad"]}]}
             0 Scenario.cluster []).
Proof.
  assert (¬ ∃ n, validInteger "bad" n) as Hbad.
  { apply Atoi_rejects. reflexivity. }
  assert ("bad" ≠ "") as Hraw by discriminate.
  exact (@main_rejects_bad_threshold Scenario.plainRuntime _ Scenario.scriptedDocker
           (Some 1%positive)
           (mkState {[1%positive := {["AVOID_MASTERS" := mkKv "AVOID_MASTERS" "bad"]}]}
                    0 Scenario.cluster [])
           Hraw Hbad).
Defined.

Lemma main_no_networks_witness :
  @main Scenario.plainRuntime _ Scenario.scriptedDocker (Some 1%positive)
    (Scenario.baseState
       (Scenario.mkScripted
          [mkNetwork "bridge" "bridge"; mkNetwork "ingress" "overlay"]
          [mkNode "worker" "w1"] []))
  = (Fatal ("no overlay networks found" +:+ LF),
     Scenario.baseState
       (Scenario.mkScripted
          [mkNetwork "bridge" "bridge"; mkNetwork "ingress" "overlay"]
          [mkNode "worker" "w1"] [])).
Proof.
  exact (@main_no_networks Scenario.plainRuntime _ Scenario.scriptedDocker
           1%positive Scenario.baseEnv
           {| AvoidNetworks := {["ingress" := "ingress"]}; AvoidMasters := 1 |}
           (Scenario.baseState
              (Scenario.mkScripted
                 [mkNetwork "bridge" "bridge"; mkNetwork "ingress" "overlay"]
                 [mkNode "worker" "w1"] []))
           _ [mkNetwork "bridge" "bridge"; mkNetwork "ingress" "overlay"]
           eq_refl eq_refl eq_refl eq_refl eq_refl).
Defined.

Lemma main_no_nodes_witness :
  @main Scenario.plainRuntime _ Scenario.scriptedDocker (Some 1%positive)
    (Scenario.baseState
       (Scenario.mkScripted [mkNetwork "net-a" "overlay"]
                            [mkNode "manager" "m1"] []))
  = (Fatal ("no useable nodes found" +:+ LF),
     Scenario.baseState
       (Scenario.mkScripted [mkNetwork "net-a" "overlay"]
                            [mkNode "manager" "m1"] [])).
Proof.
  refine (@main_no_nodes Scenario.plainRuntime _ Scenario.scriptedDocker
            1%positive Scenario.baseEnv
            {| AvoidNetworks := {["ingress" := "ingress"]}; AvoidMasters := 1 |}
            (Scenario.baseState
               (Scenario.mkScripted [mkNetwork "net-a" "overlay"]
                                    [mkNode "manager" "m1"] []))
            _ _ [mkNetwork "net-a" "overlay"] [mkNode "manager" "m1"]
            eq_refl eq_refl eq_refl eq_refl _ eq_refl eq_refl eq_refl).
  discriminate.
Defined.


Lemma mainWithFile_no_panic_witness :
  (@mainWithFile Scenario.asciiStrings Scenario.plainRuntime _
     Scenario.scriptedDocker
     (inl ["STACK_NAME=app"; "SERVICE_NAME=svc"; "IMAGE=img:v1"])
     (mkState ∅ 0 Scenario.cluster [])).1
  ≠ Panic "assignment to entry in nil map".
Proof.
  exact (@mainWithFile_no_panic Scenario.plainRuntime _ Scenario.scriptedDocker
           Scenario.asciiStrings
           (inl ["STACK_NAME=app"; "SERVICE_NAME=svc"; "IMAGE=img:v1"])
           (mkState ∅ 0 Scenario.cluster [])
           "assignment to entry in nil map" (fun _ => eq_refl)).
Defined.
